(** * train.py: the epoch driver of the BertMultiLabel trainer

    A shallow embedding of [train_one_epoch] and [train_and_evaluate]
    (src/train.py) and the properties of the training loop, the best
    trackers and the checkpoints.

    Conventions of the embedding.
    - Python floats are IEEE binary64 numbers: Rocq's primitive [float],
      compared with [PrimFloat.ltb] and [PrimFloat.leb] (false on NaN, as
      Python's [>] and [>=]).  The entries of the prediction tensor are
      read at that precision.
    - Python integers are [Z]; [%] is [Z.modulo] (the sign of the divisor,
      as in Python), and raises ZeroDivisionError on a zero divisor.
    - A local variable that may be unbound is an [option]; reading [None]
      raises UnboundLocalError.
    - The torch objects (model, optimizer, loss function), the evaluation
      function and the metric functions are collaborators: variables of
      the section.  Every call that has an effect on them is also written
      to a trace, in program order.
    - Exceptions carry the line of src/train.py that raises them. *)

From Stdlib Require Import Ascii String ZArith List Bool Lia Floats Sorted
  DecimalString.
Import ListNotations.
Open Scope Z_scope.
Set Warnings "-inexact-float".

(** ** Exceptions and results *)

Inductive exn : Type :=
| UnboundLocalError (name : string) (lineno : Z)
| ZeroDivisionError (lineno : Z)
| MissingCheckpoint (path : string) (lineno : Z).

Inductive result (A : Type) : Type :=
| Ok (a : A)
| Raise (e : exn).
Arguments Ok {A} a.
Arguments Raise {A} e.

(** ** Python arithmetic *)

(** [a % b] on integers, raised at line [lineno]. *)
Definition py_mod (lineno : Z) (a b : Z) : result Z :=
  if b =? 0 then Raise (ZeroDivisionError lineno) else Ok (a mod b).

(** [float(n)] for a list length. *)
Definition float_of_len (n : nat) : float :=
  PrimFloat.of_uint63 (Uint63.of_Z (Z.of_nat n)).

(** [sum(xs)]: starts from the integer 0 and adds from the left. *)
Definition py_sum (xs : list float) : float :=
  fold_left PrimFloat.add xs 0%float.

(** [sum(xs) * 1. / len(xs)], line 86. *)
Definition loss_average (loss_batch : list float) : result float :=
  match loss_batch with
  | [] => Raise (ZeroDivisionError 86)
  | _ => Ok (PrimFloat.div (PrimFloat.mul (py_sum loss_batch) 1%float)
                           (float_of_len (length loss_batch)))
  end.

(** The arithmetic mean of a list of floats, in float arithmetic. *)
Definition mean (xs : list float) : float :=
  PrimFloat.div (py_sum xs) (float_of_len (length xs)).

(** ** Tensors and arrays *)

Definition Scores := list (list float).   (* y_pred: rows of per-label scores *)
Definition IntMatrix := list (list Z).    (* integer arrays and targets *)

(** [.astype(np.int32)] on an integer: two's-complement wrap-around. *)
Definition astype_int32 (z : Z) : Z := (z + 2 ^ 31) mod 2 ^ 32 - 2 ^ 31.

(** [(y_pred > threshold).astype(np.int32)], lines 58-59. *)
Definition binarize_score (threshold s : float) : Z :=
  if PrimFloat.ltb threshold s then 1 else 0.

Definition binarize (threshold : float) (y_pred : Scores) : IntMatrix :=
  map (map (binarize_score threshold)) y_pred.

(** ** The metric accumulator *)

(** Modelled from the spec: utils.Accumulate is not under src/.  Spec 4.1:
    it appends each batch's binarized predictions and integer targets to
    ordered storage, and on finalize returns the two row-wise
    concatenations in arrival order.  Rows have the fixed label width of
    the data model, so the shape error of 4.1 does not arise. *)
Record Accumulate : Type := mkAccumulate {
  acc_outputs : list IntMatrix;
  acc_targets : list IntMatrix
}.

Definition Accumulate_new : Accumulate := mkAccumulate [] [].

Definition Accumulate_update (a : Accumulate) (outputs_batch targets_batch : IntMatrix)
  : Accumulate :=
  mkAccumulate (acc_outputs a ++ [outputs_batch]) (acc_targets a ++ [targets_batch]).

Definition Accumulate_call (a : Accumulate) : IntMatrix * IntMatrix :=
  (concat (acc_outputs a), concat (acc_targets a)).

(** ** Dictionaries with string keys, in insertion order *)

Fixpoint dict_set {V : Type} (k : string) (v : V) (d : list (string * V))
  : list (string * V) :=
  match d with
  | [] => [(k, v)]
  | (k', v') :: r =>
      if String.eqb k k' then (k, v) :: r else (k', v') :: dict_set k v r
  end.

Fixpoint dict_get {V : Type} (k : string) (d : list (string * V)) : option V :=
  match d with
  | [] => None
  | (k', v') :: r => if String.eqb k k' then Some v' else dict_get k r
  end.

(** ** Configuration *)

(** The fields of utils.Params that train.py reads in the two functions. *)
Record Params : Type := mkParams {
  update_grad_every : Z;
  threshold : float;
  num_epochs : Z;
  save_every : Z
}.

(** [os.path.join(a, b)] on POSIX paths. *)
Definition starts_with_slash (s : string) : bool :=
  match s with
  | String c _ => Ascii.eqb c "/"%char
  | EmptyString => false
  end.

Fixpoint ends_with_slash (s : string) : bool :=
  match s with
  | EmptyString => false
  | String c EmptyString => Ascii.eqb c "/"%char
  | String _ r => ends_with_slash r
  end.

Definition path_join (a b : string) : string :=
  if starts_with_slash b then b
  else if (String.eqb a "" || ends_with_slash a)%bool then (a ++ b)%string
  else (a ++ "/" ++ b)%string.

(** The JSON files of a run, under [exp_dir/metrics/name/]:
    [train/epoch_N_train_f1.json], [test/epoch_N_test_f1.json],
    [train/best_train_f1.json] and [test/best_test_f1.json]. *)
Inductive json_path : Type :=
| EpochTrainJson (n : Z)
| EpochTestJson (n : Z)
| BestTrainJson
| BestTestJson.

(** What [evaluate] returns, as far as train.py reads and writes it:
    [stats['f1']['macro_f1']], [stats['loss_avg']] and the key ["epoch"]
    that lines 148 and 157 add. *)
Record Stats : Type := mkStats {
  macro_f1 : float;
  loss_avg : float;
  stats_epoch : option Z
}.

Definition stamp_epoch (s : Stats) (n : Z) : Stats :=
  mkStats (macro_f1 s) (loss_avg s) (Some n).

(** ** Facts of binary64 arithmetic *)

Lemma digits2_pos_shift52 (m : positive) :
  Z.pos (digits2_pos (m * 4503599627370496)) = Z.pos (digits2_pos m) + 52.
Proof.
  rewrite Pos.mul_comm. cbn [Pos.mul digits2_pos].
  repeat rewrite Pos2Z.inj_succ. lia.
Qed.

Lemma shr_1_shift52 (m : positive) :
  iter_pos shr_1 52
    {| shr_m := Z.pos (m * 4503599627370496); shr_r := false; shr_s := false |}
  = {| shr_m := Z.pos m; shr_r := false; shr_s := false |}.
Proof. rewrite Pos.mul_comm. cbn [Pos.mul]. reflexivity. Qed.

Lemma SF64mul_one_r (x : spec_float) :
  valid_binary x = true ->
  SF64mul x (S754_finite false 4503599627370496 (-52)) = x.
Proof.
  intros Hv. unfold SF64mul.
  destruct x as [s | s | | s m e]; cbn [SFmul]; rewrite ?xorb_false_r; try reflexivity.
  cbn [SpecFloat.valid_binary] in Hv. unfold bounded, canonical_mantissa in Hv.
  apply andb_prop in Hv. destruct Hv as [Hc Hb].
  apply Z.eqb_eq in Hc.
  unfold binary_round_aux, shr_fexp. cbn [Zdigits2 shr_record_of_loc].
  rewrite digits2_pos_shift52.
  replace (Z.pos (digits2_pos m) + 52 + (e + -52)) with (Z.pos (digits2_pos m) + e) by lia.
  rewrite Hc.
  replace (e - (e + -52)) with 52 by lia.
  cbn [shr]. rewrite shr_1_shift52.
  cbn [shr_m loc_of_shr_record round_nearest_even Zdigits2 shr_record_of_loc].
  replace (e + -52 + 52) with e by lia.
  rewrite Hc, Z.sub_diag. cbn [shr shr_m]. rewrite Hb. reflexivity.
Qed.

(** Multiplying by [1.] is exact. *)
Lemma float_mul_one_r (x : float) : PrimFloat.mul x 1%float = x.
Proof.
  apply Prim2SF_inj. rewrite mul_spec.
  change (Prim2SF 1) with (S754_finite false 4503599627370496 (-52)).
  apply SF64mul_one_r, Prim2SF_valid.
Qed.

(** [x <= x] holds of every float that is not NaN, and a float that is
    above another in [<=] is not NaN. *)
Lemma SFcompare_refl (y : spec_float) : y <> S754_nan -> SFcompare y y = Some Eq.
Proof.
  destruct y as [s | s | | s m e]; cbn; intros Hy.
  - reflexivity.
  - destruct s; reflexivity.
  - congruence.
  - rewrite Z.compare_refl, Pos.compare_cont_refl. destruct s; reflexivity.
Qed.

Lemma SFleb_refl (y : spec_float) : y <> S754_nan -> SFleb y y = true.
Proof. intros Hy. unfold SFleb. rewrite (SFcompare_refl y Hy). reflexivity. Qed.

Lemma SFleb_refl_of_leb (x y : spec_float) : SFleb x y = true -> SFleb y y = true.
Proof.
  intros H. apply SFleb_refl. intros ->.
  unfold SFleb in H. destruct x; cbn in H; discriminate.
Qed.

(** [x < x] holds of no float. *)
Lemma float_ltb_irrefl (x : float) : PrimFloat.ltb x x = false.
Proof.
  rewrite ltb_spec. unfold SFltb.
  destruct (Prim2SF x) as [s | s | | s m e] eqn:E; try reflexivity.
  - destruct s; reflexivity.
  - rewrite SFcompare_refl by discriminate. reflexivity.
Qed.

(** Floats that are equal are not one below the other. *)
Lemma float_ltb_of_eqb (x y : float) :
  PrimFloat.eqb x y = true -> PrimFloat.ltb x y = false.
Proof.
  rewrite eqb_spec, ltb_spec. unfold SFeqb, SFltb.
  destruct (SFcompare (Prim2SF x) (Prim2SF y)) as [[| |] |]; congruence.
Qed.

Lemma SFleb_trans (x y z : spec_float) :
  SFleb x y = true -> SFleb y z = true -> SFleb x z = true.
Proof.
  unfold SFleb, SFcompare.
  destruct x as [sx | sx | | sx mx ex], y as [sy | sy | | sy my ey],
    z as [sz | sz | | sz mz ez];
    try discriminate; try reflexivity;
    try (destruct sx; try discriminate; try reflexivity);
    try (destruct sy; try discriminate; try reflexivity);
    try (destruct sz; try discriminate; try reflexivity).
  all: change (PosDef.Pos.compare_cont Eq) with Pos.compare.
  all: destruct (Z.compare_spec ex ey); try discriminate;
    destruct (Z.compare_spec ey ez); try discriminate;
    destruct (Z.compare_spec ex ez); try reflexivity; try lia; subst.
  all: destruct (Pos.compare_spec mx my); try discriminate;
    destruct (Pos.compare_spec my mz); try discriminate;
    destruct (Pos.compare_spec mx mz); try reflexivity; try lia.
Qed.

(** [<=] on floats is transitive. *)
Lemma float_leb_trans (x y z : float) :
  PrimFloat.leb x y = true -> PrimFloat.leb y z = true -> PrimFloat.leb x z = true.
Proof. rewrite !leb_spec. apply SFleb_trans. Qed.

(** Floats that are equal are in [<=]. *)
Lemma float_leb_of_eqb (x y : float) :
  PrimFloat.eqb x y = true -> PrimFloat.leb x y = true.
Proof.
  rewrite eqb_spec, leb_spec. unfold SFeqb, SFleb.
  destruct (SFcompare (Prim2SF x) (Prim2SF y)) as [[| |] |]; congruence.
Qed.

Lemma float_leb_refl_of_leb (x y : float) :
  PrimFloat.leb x y = true -> PrimFloat.leb y y = true.
Proof. rewrite !leb_spec. apply SFleb_refl_of_leb. Qed.

Lemma SFleb_total (x y : spec_float) :
  x <> S754_nan -> y <> S754_nan -> SFleb x y = true \/ SFleb y x = true.
Proof.
  unfold SFleb, SFcompare.
  destruct x as [sx | sx | | sx mx ex], y as [sy | sy | | sy my ey];
    intros Hx Hy; try congruence; auto;
    try (destruct sx; auto; fail); try (destruct sy; auto; fail);
    try (destruct sx, sy; auto; fail).
  change (PosDef.Pos.compare_cont Eq) with Pos.compare.
  rewrite (Z.compare_antisym ex ey), (Pos.compare_antisym mx my).
  destruct sx, sy; auto;
    destruct (ex ?= ey); cbn; auto; destruct (mx ?= my)%positive; cbn; auto.
Qed.

Lemma SFleb_ltb_trans (x y z : spec_float) :
  SFleb x y = true -> SFltb y z = true -> SFltb x z = true.
Proof.
  unfold SFleb, SFltb, SFcompare.
  destruct x as [sx | sx | | sx mx ex], y as [sy | sy | | sy my ey],
    z as [sz | sz | | sz mz ez];
    try discriminate; try reflexivity;
    try (destruct sx; try discriminate; try reflexivity);
    try (destruct sy; try discriminate; try reflexivity);
    try (destruct sz; try discriminate; try reflexivity).
  all: change (PosDef.Pos.compare_cont Eq) with Pos.compare.
  all: destruct (Z.compare_spec ex ey); try discriminate;
    destruct (Z.compare_spec ey ez); try discriminate;
    destruct (Z.compare_spec ex ez); try reflexivity; try lia; subst.
  all: destruct (Pos.compare_spec mx my); try discriminate;
    destruct (Pos.compare_spec my mz); try discriminate;
    destruct (Pos.compare_spec mx mz); try reflexivity; try lia.
Qed.

(** A float is NaN exactly when [x <= x] fails. *)
Lemma float_leb_refl_iff (x : float) :
  PrimFloat.leb x x = true <-> Prim2SF x <> S754_nan.
Proof.
  rewrite leb_spec. split.
  - intros H E. rewrite E in H. discriminate.
  - apply SFleb_refl.
Qed.

(** [<=] is total on the floats that are not NaN. *)
Lemma float_leb_total (x y : float) :
  PrimFloat.leb x x = true -> PrimFloat.leb y y = true ->
  PrimFloat.leb x y = true \/ PrimFloat.leb y x = true.
Proof.
  rewrite !float_leb_refl_iff, !leb_spec. apply SFleb_total.
Qed.

Lemma float_leb_ltb_trans (x y z : float) :
  PrimFloat.leb x y = true -> PrimFloat.ltb y z = true -> PrimFloat.ltb x z = true.
Proof. rewrite leb_spec, !ltb_spec. apply SFleb_ltb_trans. Qed.

(** Nothing is below or above NaN. *)
Lemma float_ltb_not_nan (x y : float) :
  PrimFloat.ltb x y = true -> PrimFloat.leb x x = true /\ PrimFloat.leb y y = true.
Proof.
  rewrite ltb_spec, !float_leb_refl_iff. unfold SFltb. intros H.
  split; intros E; rewrite E in H; [| destruct (Prim2SF x)]; cbn in H; discriminate.
Qed.

Section Trainer.

(** *** Collaborators *)

(* the raw input of a batch; parameters, gradients and optimizer state;
   model.state_dict(); optimizer.state_dict(); the value of a metric *)
Context {Data Net ModelState OptimState MetricValue : Type}.

Record Batch : Type := mkBatch { data : Data; target : IntMatrix }.

Variable model_train : Net -> Net.                        (* model.train() *)
Variable model : Net -> Data -> Scores.                   (* model(data) *)
Variable loss_fn : Scores -> IntMatrix -> float.          (* criterion(...).item() *)
Variable backward : Net -> Data -> IntMatrix -> Net.      (* loss.backward() *)
Variable step : Net -> Net.                               (* optimizer.step() *)
Variable zero_grad : Net -> Net.                          (* optimizer.zero_grad() *)
Variable evaluate : Net -> list Batch -> Stats.           (* evaluate(model, ...) *)
Variable state_dict : Net -> ModelState.
Variable optim_state_dict : Net -> OptimState.
Variable load_state_dict : ModelState -> OptimState -> Net -> Net.

Record Checkpoint : Type := mkCheckpoint {
  epoch : Z;
  ck_state_dict : ModelState;
  ck_optim_dict : OptimState
}.

(** *** The world: the torch objects and the trace of calls on them *)

Inductive event : Type :=
| Forward (i : Z) (y_pred : Scores) (loss : float)    (* lines 48-49, batch i *)
| Backward (i : Z)                                    (* line 50, batch i *)
| OptimizerStep                                       (* lines 54, 78 *)
| ZeroGrad                                            (* lines 55, 79 *)
| SaveJson (p : json_path) (s : Stats)                (* utils.save_dict_to_json *)
| SaveCheckpoint (state : Checkpoint) (is_best periodic : bool).
                                                      (* utils.save_checkpoint *)

Record World : Type := mkWorld { net : Net; trace : list event }.

Definition M (A : Type) : Type := World -> result (A * World).

Definition ret {A : Type} (a : A) : M A := fun w => Ok (a, w).

Definition bind {A B : Type} (m : M A) (k : A -> M B) : M B :=
  fun w => match m w with
           | Ok (a, w') => k a w'
           | Raise e => Raise e
           end.

Definition lift {A : Type} (r : result A) : M A :=
  fun w => match r with Ok a => Ok (a, w) | Raise e => Raise e end.

Definition emit (e : event) : M unit :=
  fun w => Ok (tt, mkWorld (net w) (trace w ++ [e])).

Definition update_net (f : Net -> Net) : M unit :=
  fun w => Ok (tt, mkWorld (f (net w)) (trace w)).

Definition get_net : M Net := fun w => Ok (net w, w).

(** Reading a local variable that may be unbound. *)
Definition read_local {A : Type} (name : string) (lineno : Z) (v : option A) : M A :=
  match v with
  | Some a => ret a
  | None => lift (Raise (UnboundLocalError name lineno))
  end.

Notation "x <- m ;; k" := (bind m (fun x => k))
  (at level 61, m at next level, right associativity).
Notation "m ;;; k" := (bind m (fun _ => k))
  (at level 61, right associativity).

Definition optimizer_step : M unit := update_net step ;;; emit OptimizerStep.
Definition optimizer_zero_grad : M unit := update_net zero_grad ;;; emit ZeroGrad.

(** *** train_one_epoch, lines 31-88 *)

(** The locals that live across iterations. *)
Record Locals : Type := mkLocals {
  loss_batch : list float;
  accumulate : Accumulate;
  var_i : option Z;
  var_loss : option float
}.

Definition summary_value : Type := (MetricValue + float)%type.
Definition Summary : Type := list (string * summary_value).
Definition Metrics : Type :=
  list (string * (IntMatrix -> IntMatrix -> list string -> MetricValue)).

(** One iteration of the training loop, lines 45-73. *)
Definition loop_body (params : Params) (l : Locals) (i : Z) (b : Batch) : M Locals :=
  n <- get_net ;;
  let y_pred := model n (data b) in                               (* 48 *)
  let loss := loss_fn y_pred (target b) in                        (* 49 *)
  emit (Forward i y_pred loss) ;;;
  update_net (fun n => backward n (data b) (target b)) ;;;        (* 50 *)
  emit (Backward i) ;;;
  r <- lift (py_mod 53 (i + 1) (update_grad_every params)) ;;     (* 53 *)
  lb <- (if r =? 0
         then optimizer_step ;;;                                  (* 54 *)
              optimizer_zero_grad ;;;                             (* 55 *)
              ret (loss_batch l ++ [loss])                        (* 56 *)
         else ret (loss_batch l)) ;;
  let outputs_batch := binarize (threshold params) y_pred in      (* 58-59 *)
  let targets_batch := map (map astype_int32) (target b) in       (* 61 *)
  ret (mkLocals lb
         (Accumulate_update (accumulate l) outputs_batch targets_batch)  (* 63 *)
         (Some i) (Some loss)).

(** [for i, (data, target) in enumerate(iter(data_loader))], line 44,
    from index [i]. *)
Fixpoint training_loop (params : Params) (i : Z) (batches : list Batch) (l : Locals)
  : M Locals :=
  match batches with
  | [] => ret l
  | b :: rest =>
      l' <- loop_body params l i b ;;
      training_loop params (i + 1) rest l'
  end.

(** The [else] clause of the loop, lines 75-80: the loop has no [break],
    so it runs whenever the loop ends. *)
Definition loop_else (params : Params) (l : Locals) : M Locals :=
  i <- read_local "i" 77 (var_i l) ;;
  r <- lift (py_mod 77 (i + 1) (update_grad_every params)) ;;     (* 77 *)
  if negb (r =? 0)
  then optimizer_step ;;;                                         (* 78 *)
       optimizer_zero_grad ;;;                                    (* 79 *)
       loss <- read_local "loss" 80 (var_loss l) ;;
       ret (mkLocals (loss_batch l ++ [loss]) (accumulate l)      (* 80 *)
              (var_i l) (var_loss l))
  else ret l.

(** Lines 82-88. *)
Definition summarize (metrics : Metrics) (target_names : list string) (l : Locals)
  : M Summary :=
  let '(outputs, targets) := Accumulate_call (accumulate l) in    (* 82 *)
  let summary_batch : Summary :=
    map (fun '(name, f) => (name, inl (f outputs targets target_names)))
        metrics in                                                (* 84-85 *)
  avg <- lift (loss_average (loss_batch l)) ;;                    (* 86 *)
  ret (dict_set "loss_avg" (inr avg) summary_batch).

(** Lines 35-80: everything before the summary. *)
Definition epoch_pass (params : Params) (data_loader : list Batch) : M Locals :=
  update_net model_train ;;;                                      (* 35 *)
  l <- training_loop params 0 data_loader
         (mkLocals [] Accumulate_new None None) ;;                (* 40-73 *)
  loop_else params l.                                             (* 75-80 *)

Definition train_one_epoch (data_loader : list Batch) (params : Params)
           (metrics : Metrics) (target_names : list string) : M Summary :=
  l <- epoch_pass params data_loader ;;
  summarize metrics target_names l.


(** *** train_and_evaluate, lines 91-184 *)

(** Modelled from the spec: utils.load_checkpoint is not under src/.
    Spec 4.3 and 6: [load(path)] gives the record (epoch, model_state,
    optimizer_state) stored at [path], restores both states into the
    model and the optimizer, and a missing file is fatal.  Line 106 adds
    1 to what it returns, which is the stored epoch.  [disk] is what is
    stored at each path. *)
Definition load_checkpoint (disk : string -> option Checkpoint) (restore_path : string)
  : M Z :=
  match disk restore_path with
  | None => lift (Raise (MissingCheckpoint restore_path 106))
  | Some ck =>
      update_net (load_state_dict (ck_state_dict ck) (ck_optim_dict ck)) ;;;
      ret (epoch ck)
  end.

(** The state of [train_and_evaluate] at the end of an iteration of the
    epoch loop: its locals, and the model and optimizer they refer to. *)
Record Run : Type := mkRun {
  var_epoch : Z;
  var_net : Net;
  train_stats : Stats;
  test_stats : Stats;
  train_macro_f1 : float;
  test_macro_f1 : float;
  is_train_best : bool;
  is_test_best : bool;
  best_train_macro_f1 : float;
  best_test_macro_f1 : float;
  var_state : Checkpoint
}.

(** [range(a, b)]. *)
Definition py_range (a b : Z) : list Z :=
  map (fun k => a + Z.of_nat k) (seq 0 (Z.to_nat (b - a))).

Section Run.

Variable train_loader test_loader : list Batch.
Variable params : Params.
Variable metrics : Metrics.
Variable target_names : list string.

(** One iteration of the epoch loop, lines 109-178, entered with the
    best values [best_train] and [best_test]. *)
Definition epoch_body (e : Z) (best_train best_test : float) : M Run :=
  train_one_epoch train_loader params metrics target_names ;;;      (* 111 *)
  n <- get_net ;;
  let test_stats := evaluate n test_loader in                       (* 114 *)
  let train_stats := evaluate n train_loader in                     (* 117 *)
  let train_f1 := macro_f1 train_stats in                           (* 122 *)
  let train_best := PrimFloat.leb best_train train_f1 in            (* 123 *)
  let test_f1 := macro_f1 test_stats in                             (* 125 *)
  let test_best := PrimFloat.leb best_test test_f1 in               (* 126 *)
  emit (SaveJson (EpochTrainJson (e + 1)) train_stats) ;;;          (* 138 *)
  emit (SaveJson (EpochTestJson (e + 1)) test_stats) ;;;            (* 143 *)
  tr <-
    (if train_best                                                  (* 146 *)
     then let train_stats := stamp_epoch train_stats (e + 1) in     (* 148 *)
          emit (SaveJson BestTrainJson train_stats) ;;;             (* 153 *)
          ret (train_f1, train_stats)                               (* 147 *)
     else ret (best_train, train_stats)) ;;
  te <-
    (if test_best                                                   (* 155 *)
     then let test_stats := stamp_epoch test_stats (e + 1) in       (* 157 *)
          emit (SaveJson BestTestJson test_stats) ;;;               (* 162 *)
          ret (test_f1, test_stats)                                 (* 156 *)
     else ret (best_test, test_stats)) ;;
  n <- get_net ;;
  let state := mkCheckpoint (e + 1) (state_dict n)
                 (optim_state_dict n) in                            (* 170-174 *)
  r <- lift (py_mod 178 (e + 1) (save_every params)) ;;             (* 178 *)
  emit (SaveCheckpoint state test_best (r =? 0)) ;;;                (* 176 *)
  ret (mkRun e n (snd tr) (snd te) train_f1 test_f1 train_best test_best
         (fst tr) (fst te) state).

(** [for epoch in range(...)], line 108: the locals at the end of every
    iteration, oldest first. *)
Fixpoint epoch_loop (epochs : list Z) (best_train best_test : float)
  : M (list Run) :=
  match epochs with
  | [] => ret []
  | e :: rest =>
      r <- epoch_body e best_train best_test ;;
      rs <- epoch_loop rest (best_train_macro_f1 r) (best_test_macro_f1 r) ;;
      ret (r :: rs)
  end.

(** Line 182: [state] and [is_test_best] are those of the last
    iteration, unbound when there was none. *)
Definition final_save (rs : list Run) : M unit :=
  match rev rs with
  | [] => lift (Raise (UnboundLocalError "state" 182))
  | r :: _ => emit (SaveCheckpoint (var_state r) (is_test_best r) true)
  end.

(** Lines 95-106: the epoch to start from. *)
Definition resume (disk : string -> option Checkpoint)
           (exp_dir : string) (restore_file : option string) : M Z :=
  match restore_file with                                           (* 101 *)
  | None => ret 0                                                   (* 95 *)
  | Some f =>
      let restore_path := path_join exp_dir (f ++ ".pth.tar") in    (* 102 *)
      e <- load_checkpoint disk restore_path ;;
      ret (e + 1)                                                   (* 106 *)
  end.

Definition train_and_evaluate (disk : string -> option Checkpoint)
           (exp_dir : string) (restore_file : option string) : M (list Run) :=
  start_epoch <- resume disk exp_dir restore_file ;;
  rs <- epoch_loop (py_range start_epoch (num_epochs params))
          0%float 0%float ;;                                        (* 97-98, 108 *)
  final_save rs ;;;                                                 (* 182 *)
  ret rs.

(** *** Reading the trace *)

Definition is_step (e : event) : bool :=
  match e with OptimizerStep => true | _ => false end.

(** The number of [optimizer.step()] calls in a trace. *)
Definition optimizer_steps (evs : list event) : Z :=
  Z.of_nat (length (filter is_step evs)).

(** The batch losses and predictions a trace observed, in order. *)
Definition losses_of (evs : list event) : list float :=
  flat_map (fun e => match e with Forward _ _ loss => [loss] | _ => [] end) evs.

Definition preds_of (evs : list event) : list Scores :=
  flat_map (fun e => match e with Forward _ y_pred _ => [y_pred] | _ => [] end) evs.

(** What torch does with gradients: [backward] adds the batch's
    gradient to the accumulated one, [step] applies the accumulated
    gradient, [zero_grad] clears it.  [pending] are the batches whose
    gradient is accumulated and [applied] lists, for every step taken,
    the batches whose gradients it applied. *)
Record Ledger : Type := mkLedger {
  pending : list Z;
  applied : list (list Z)
}.

Definition ledger_event (L : Ledger) (e : event) : Ledger :=
  match e with
  | Backward i => mkLedger (pending L ++ [i]) (applied L)
  | OptimizerStep => mkLedger (pending L) (applied L ++ [pending L])
  | ZeroGrad => mkLedger [] (applied L)
  | _ => L
  end.

Definition ledger_of (evs : list event) : Ledger :=
  fold_left ledger_event evs (mkLedger [] []).

(** Batch [j] contributed to an applied gradient step. *)
Definition contributes (evs : list event) (j : Z) : Prop :=
  exists g, In g (applied (ledger_of evs)) /\ In j g.

(** [ceil(n / k)] for a positive [k]. *)
Definition ceil_div (n k : Z) : Z := (n + k - 1) / k.

(** The index of the last batch of accumulation group [g] (from 0)
    among [n] batches: groups are [g*k .. min((g+1)*k, n) - 1]. *)
Definition group_end (k n g : Z) : Z := Z.min ((g + 1) * k) n - 1.

(** *** One iteration of the training loop as a function *)

Definition at_boundary (params : Params) (i : Z) : bool :=
  (i + 1) mod update_grad_every params =? 0.

Definition body_events (params : Params) (n : Net) (i : Z) (b : Batch) : list event :=
  let y_pred := model n (data b) in
  [Forward i y_pred (loss_fn y_pred (target b)); Backward i]
    ++ (if at_boundary params i then [OptimizerStep; ZeroGrad] else []).

Definition body_net (params : Params) (n : Net) (i : Z) (b : Batch) : Net :=
  let n1 := backward n (data b) (target b) in
  if at_boundary params i then zero_grad (step n1) else n1.

Definition body_locals (params : Params) (n : Net) (l : Locals) (i : Z) (b : Batch)
  : Locals :=
  let y_pred := model n (data b) in
  let loss := loss_fn y_pred (target b) in
  mkLocals
    (if at_boundary params i then loss_batch l ++ [loss] else loss_batch l)
    (Accumulate_update (accumulate l) (binarize (threshold params) y_pred)
       (map (map astype_int32) (target b)))
    (Some i) (Some loss).

(** *** One iteration of the epoch loop as a function of the trained net *)

Definition epoch_result (e : Z) (best_train best_test : float) (n : Net) : Run :=
  let test_stats := evaluate n test_loader in
  let train_stats := evaluate n train_loader in
  let train_best := PrimFloat.leb best_train (macro_f1 train_stats) in
  let test_best := PrimFloat.leb best_test (macro_f1 test_stats) in
  mkRun e n
    (if train_best then stamp_epoch train_stats (e + 1) else train_stats)
    (if test_best then stamp_epoch test_stats (e + 1) else test_stats)
    (macro_f1 train_stats) (macro_f1 test_stats) train_best test_best
    (if train_best then macro_f1 train_stats else best_train)
    (if test_best then macro_f1 test_stats else best_test)
    (mkCheckpoint (e + 1) (state_dict n) (optim_state_dict n)).

Definition epoch_events (e : Z) (best_train best_test : float) (n : Net)
  : list event :=
  let r := epoch_result e best_train best_test n in
  [SaveJson (EpochTrainJson (e + 1)) (evaluate n train_loader);
   SaveJson (EpochTestJson (e + 1)) (evaluate n test_loader)]
    ++ (if is_train_best r then [SaveJson BestTrainJson (train_stats r)] else [])
    ++ (if is_test_best r then [SaveJson BestTestJson (test_stats r)] else [])
    ++ [SaveCheckpoint (var_state r) (is_test_best r)
          ((e + 1) mod save_every params =? 0)].

(** ** Properties of the training loop *)

Lemma div_succ (k i : Z) :
  0 < k -> 0 <= i ->
  (i + 1) / k = i / k + (if (i + 1) mod k =? 0 then 1 else 0).
Proof.
  intros Hk Hi.
  pose proof (Z.div_mod i k ltac:(lia)) as Ei.
  pose proof (Z.mod_pos_bound i k Hk) as Bi.
  pose proof (Z.div_mod (i + 1) k ltac:(lia)) as Es.
  pose proof (Z.mod_pos_bound (i + 1) k Hk) as Bs.
  destruct ((i + 1) mod k =? 0) eqn:E.
  - apply Z.eqb_eq in E. nia.
  - apply Z.eqb_neq in E. nia.
Qed.

Lemma ceil_div_tail (k n : Z) :
  0 < k -> 0 <= n ->
  n / k + (if n mod k =? 0 then 0 else 1) = ceil_div n k.
Proof.
  intros Hk Hn. unfold ceil_div.
  pose proof (Z.div_mod n k ltac:(lia)) as En.
  pose proof (Z.mod_pos_bound n k Hk) as Bn.
  destruct (n mod k =? 0) eqn:E.
  - apply Z.eqb_eq in E. apply Z.div_unique with (r := k - 1); lia.
  - apply Z.eqb_neq in E. apply Z.div_unique with (r := n mod k - 1); lia.
Qed.

(** [ceil_div] is the ceiling of the quotient. *)
Lemma ceil_div_spec (k n : Z) :
  0 < k -> (ceil_div n k - 1) * k < n <= ceil_div n k * k.
Proof.
  intros Hk. unfold ceil_div.
  pose proof (Z.div_mod (n + k - 1) k ltac:(lia)).
  pose proof (Z.mod_pos_bound (n + k - 1) k Hk).
  nia.
Qed.

Lemma loop_body_eq (l : Locals) (i : Z) (b : Batch) (w : World) :
  update_grad_every params <> 0 ->
  loop_body params l i b w =
    Ok (body_locals params (net w) l i b,
        mkWorld (body_net params (net w) i b)
                (trace w ++ body_events params (net w) i b)).
Proof.
  intros HK.
  unfold loop_body, body_locals, body_net, body_events, at_boundary, py_mod,
    optimizer_step, optimizer_zero_grad, bind, lift, emit, update_net, get_net, ret.
  apply Z.eqb_neq in HK. rewrite HK. cbn.
  destruct ((i + 1) mod update_grad_every params =? 0); cbn;
    repeat rewrite <- app_assoc; reflexivity.
Qed.

(** The invariant rule of the training loop: [Q] relates the index of
    the next batch, the locals, the torch objects and the events
    written since the loop was entered. *)
Lemma training_loop_inv (Q : Z -> Locals -> Net -> list event -> Prop) :
  update_grad_every params <> 0 ->
  (forall i l n evs b,
      Q i l n evs ->
      Q (i + 1) (body_locals params n l i b) (body_net params n i b)
        (evs ++ body_events params n i b)) ->
  forall batches i l n tr evs,
    Q i l n evs ->
    exists l' n' evs',
      training_loop params i batches l (mkWorld n (tr ++ evs))
      = Ok (l', mkWorld n' (tr ++ evs'))
      /\ Q (i + Z.of_nat (length batches)) l' n' evs'.
Proof.
  intros HK Hstep.
  induction batches as [|b rest IH]; intros i l n tr evs HQ.
  - exists l, n, evs. cbn. rewrite Z.add_0_r. split; [reflexivity | assumption].
  - cbn [training_loop]. unfold bind at 1.
    rewrite (loop_body_eq l i b _ HK). cbn [net trace].
    rewrite <- app_assoc.
    destruct (IH (i + 1) _ _ tr _ (Hstep i l n evs b HQ)) as (l' & n' & evs' & E & HQ').
    exists l', n', evs'. split; [exact E |].
    replace (i + Z.of_nat (length (b :: rest)))
      with (i + 1 + Z.of_nat (length rest)) by (cbn [length]; lia).
    exact HQ'.
Qed.

(** How one iteration extends what is read from the trace. *)

Lemma losses_of_body (evs : list event) (n : Net) (i : Z) (b : Batch) :
  losses_of (evs ++ body_events params n i b)
  = losses_of evs ++ [loss_fn (model n (data b)) (target b)].
Proof.
  unfold losses_of, body_events. rewrite flat_map_app.
  destruct (at_boundary params i); reflexivity.
Qed.

Lemma preds_of_body (evs : list event) (n : Net) (i : Z) (b : Batch) :
  preds_of (evs ++ body_events params n i b) = preds_of evs ++ [model n (data b)].
Proof.
  unfold preds_of, body_events. rewrite flat_map_app.
  destruct (at_boundary params i); reflexivity.
Qed.

Lemma optimizer_steps_body (evs : list event) (n : Net) (i : Z) (b : Batch) :
  optimizer_steps (evs ++ body_events params n i b)
  = optimizer_steps evs + (if at_boundary params i then 1 else 0).
Proof.
  unfold optimizer_steps, body_events. rewrite filter_app, length_app.
  destruct (at_boundary params i); cbn; lia.
Qed.

Lemma ledger_of_app (evs evs' : list event) :
  ledger_of (evs ++ evs') = fold_left ledger_event evs' (ledger_of evs).
Proof. unfold ledger_of. apply fold_left_app. Qed.

Lemma ledger_of_body (evs : list event) (n : Net) (i : Z) (b : Batch) :
  ledger_of (evs ++ body_events params n i b)
  = let L := ledger_of evs in
    if at_boundary params i
    then mkLedger [] (applied L ++ [pending L ++ [i]])
    else mkLedger (pending L ++ [i]) (applied L).
Proof.
  rewrite ledger_of_app. unfold body_events.
  destruct (at_boundary params i); reflexivity.
Qed.

(** Every [optimizer.step()] applies one group. *)
Lemma applied_count (evs : list event) :
  Z.of_nat (length (applied (ledger_of evs))) = optimizer_steps evs.
Proof.
  unfold optimizer_steps.
  induction evs as [|e evs IH] using rev_ind; [reflexivity |].
  rewrite ledger_of_app, filter_app, length_app.
  destruct e; cbn; rewrite ?length_app; cbn; lia.
Qed.

(** The loop invariant after [i] batches: what the locals hold and what
    the events of the epoch so far add up to. *)
Definition loop_inv (i : Z) (l : Locals) (evs : list event) : Prop :=
  let K := update_grad_every params in
  0 <= i
  /\ Z.of_nat (length (losses_of evs)) = i
  /\ Z.of_nat (length (preds_of evs)) = i
  /\ Z.of_nat (length (loss_batch l)) = i / K
  /\ optimizer_steps evs = i / K
  /\ (0 < i -> var_i l = Some (i - 1)
               /\ var_loss l = Some (nth (Z.to_nat (i - 1)) (losses_of evs) 0%float))
  /\ (forall g, 0 <= g < i / K ->
        nth (Z.to_nat g) (loss_batch l) 0%float
        = nth (Z.to_nat ((g + 1) * K - 1)) (losses_of evs) 0%float)
  /\ (i mod K = 0 -> pending (ledger_of evs) = [])
  /\ (forall j, 0 <= j < i ->
        In j (pending (ledger_of evs)) \/ contributes evs j)
  /\ acc_outputs (accumulate l)
     = map (binarize (threshold params)) (preds_of evs).

Lemma loop_inv_init : loop_inv 0 (mkLocals [] Accumulate_new None None) [].
Proof.
  unfold loop_inv. cbv zeta. rewrite Zdiv_0_l, Zmod_0_l. cbn.
  repeat split; try reflexivity; try lia; intros; lia.
Qed.

Lemma loop_inv_step (i : Z) (l : Locals) (n : Net) (evs : list event) (b : Batch) :
  0 < update_grad_every params ->
  loop_inv i l evs ->
  loop_inv (i + 1) (body_locals params n l i b) (evs ++ body_events params n i b).
Proof.
  intros HK (Hi & Hlen & Hpl & Hlb & Hst & Hloc & Hrec & Hpend & Hcov & Hacc).
  pose proof (div_succ _ i HK Hi) as Hdiv.
  pose proof (Z.div_mod i (update_grad_every params) ltac:(lia)) as Ei.
  pose proof (Z.mod_pos_bound i _ HK) as Bi.
  pose proof (Z.div_mod (i + 1) (update_grad_every params) ltac:(lia)) as Es.
  unfold loop_inv, contributes in *. cbv zeta in *.
  rewrite losses_of_body, preds_of_body, optimizer_steps_body, ledger_of_body.
  unfold body_locals, at_boundary in *. cbn [loss_batch accumulate var_i var_loss].
  set (K := update_grad_every params) in *.
  set (loss := loss_fn (model n (data b)) (target b)).
  set (losses := losses_of evs) in *.
  assert (Hn : length losses = Z.to_nat i) by lia.
  rewrite Hdiv.
  repeat split.
  - lia.
  - rewrite length_app. cbn. lia.
  - rewrite length_app. cbn. lia.
  - destruct ((i + 1) mod K =? 0); [rewrite length_app; cbn |]; lia.
  - lia.
  - f_equal. lia.
  - f_equal. replace (i + 1 - 1) with i by lia.
    rewrite app_nth2 by lia. rewrite Hn, Nat.sub_diag. reflexivity.
  - intros g Hg.
    destruct (Z.ltb_spec g (i / K)) as [Hlt | Hge].
    + assert (Hidx : (g + 1) * K - 1 < i) by nia.
      rewrite (app_nth1 losses) by lia.
      rewrite <- Hrec by lia.
      destruct ((i + 1) mod K =? 0); [rewrite app_nth1 by lia |]; reflexivity.
    + destruct ((i + 1) mod K =? 0) eqn:E; [| lia].
      apply Z.eqb_eq in E.
      assert (g = i / K) by lia. subst g.
      assert (Hidx : (i / K + 1) * K - 1 = i) by nia.
      rewrite Hidx.
      rewrite app_nth2 by lia. rewrite app_nth2 by lia.
      replace (Z.to_nat (i / K) - length (loss_batch l))%nat with 0%nat by lia.
      rewrite Hn, Nat.sub_diag. reflexivity.
  - intros Hm. apply Z.eqb_eq in Hm. rewrite Hm. reflexivity.
  - intros j Hj.
    destruct (Z.eq_dec j i) as [-> | Hne].
    + destruct ((i + 1) mod K =? 0); cbn [pending applied].
      * right. exists (pending (ledger_of evs) ++ [i]).
        split; apply in_or_app; right; left; reflexivity.
      * left. apply in_or_app. right. left. reflexivity.
    + destruct (Hcov j ltac:(lia)) as [Hp | (g & Hg & Hjg)].
      * destruct ((i + 1) mod K =? 0); cbn [pending applied].
        -- right. exists (pending (ledger_of evs) ++ [i]). split.
           ++ apply in_or_app. right. left. reflexivity.
           ++ apply in_or_app. left. exact Hp.
        -- left. apply in_or_app. left. exact Hp.
      * right. exists g. split; [| exact Hjg].
        destruct ((i + 1) mod K =? 0); cbn [pending applied]; [| exact Hg].
        apply in_or_app. left. exact Hg.
  - unfold Accumulate_update. cbn [acc_outputs]. rewrite Hacc, map_app. reflexivity.
Qed.

Lemma loop_else_eq (l : Locals) (n : Net) (tr : list event) (i : Z) (x : float) :
  update_grad_every params <> 0 ->
  var_i l = Some i -> var_loss l = Some x ->
  loop_else params l (mkWorld n tr)
  = Ok (if (i + 1) mod update_grad_every params =? 0
        then (l, mkWorld n tr)
        else (mkLocals (loss_batch l ++ [x]) (accumulate l) (var_i l) (var_loss l),
              mkWorld (zero_grad (step n)) (tr ++ [OptimizerStep; ZeroGrad]))).
Proof.
  intros HK Ei Ex.
  unfold loop_else, read_local, py_mod, optimizer_step, optimizer_zero_grad,
    bind, lift, emit, update_net, ret.
  rewrite Ei, Ex. apply Z.eqb_neq in HK. rewrite HK. cbn.
  destruct ((i + 1) mod update_grad_every params =? 0); cbn;
    repeat rewrite <- app_assoc; reflexivity.
Qed.

(** What holds after line 80 of an epoch over [n] batches: [l] are the
    locals and [evs] the events of the epoch. *)
Definition pass_post (n : Z) (l : Locals) (evs : list event) : Prop :=
  let K := update_grad_every params in
  Z.of_nat (length (losses_of evs)) = n
  /\ Z.of_nat (length (preds_of evs)) = n
  /\ Z.of_nat (length (loss_batch l)) = ceil_div n K
  /\ optimizer_steps evs = ceil_div n K
  /\ (forall g, 0 <= g < ceil_div n K ->
        nth (Z.to_nat g) (loss_batch l) 0%float
        = nth (Z.to_nat (group_end K n g)) (losses_of evs) 0%float)
  /\ (forall j, 0 <= j < n -> contributes evs j)
  /\ acc_outputs (accumulate l)
     = map (binarize (threshold params)) (preds_of evs).

Lemma loop_else_post (n : Z) (l : Locals) (evs : list event) :
  0 < update_grad_every params -> 0 < n ->
  loop_inv n l evs ->
  if n mod update_grad_every params =? 0
  then pass_post n l evs
  else exists x,
      var_loss l = Some x
      /\ pass_post n
           (mkLocals (loss_batch l ++ [x]) (accumulate l) (var_i l) (var_loss l))
           (evs ++ [OptimizerStep; ZeroGrad]).
Proof.
  intros HK Hn (Hi & Hlen & Hpl & Hlb & Hst & Hloc & Hrec & Hpend & Hcov & Hacc).
  destruct (Hloc Hn) as [Evi Evl].
  pose proof (ceil_div_tail _ n HK Hi) as Hceil.
  pose proof (Z.div_mod n (update_grad_every params) ltac:(lia)) as En.
  pose proof (Z.mod_pos_bound n _ HK) as Bn.
  unfold pass_post, contributes, group_end in *. cbv zeta in *.
  set (K := update_grad_every params) in *.
  destruct (n mod K =? 0) eqn:E.
  - apply Z.eqb_eq in E. rewrite <- Hceil, Z.add_0_r.
    repeat split; try assumption.
    + intros g Hg. rewrite Hrec by lia. do 2 f_equal. nia.
    + intros j Hj. destruct (Hcov j Hj) as [Hp | Hc]; [| exact Hc].
      rewrite (Hpend E) in Hp. destruct Hp.
  - apply Z.eqb_neq in E. eexists. split; [exact Evl |].
    rewrite <- Hceil. cbn [loss_batch accumulate].
    assert (El : losses_of (evs ++ [OptimizerStep; ZeroGrad]) = losses_of evs).
    { unfold losses_of. rewrite flat_map_app. cbn. apply app_nil_r. }
    assert (Ep : preds_of (evs ++ [OptimizerStep; ZeroGrad]) = preds_of evs).
    { unfold preds_of. rewrite flat_map_app. cbn. apply app_nil_r. }
    rewrite El, Ep, ledger_of_app. cbn [fold_left ledger_event pending applied].
    repeat split; try assumption.
    + rewrite length_app. cbn. lia.
    + unfold optimizer_steps in *. rewrite filter_app, length_app. cbn. lia.
    + intros g Hg.
      destruct (Z.ltb_spec g (n / K)) as [Hlt | Hge].
      * rewrite app_nth1 by lia. rewrite Hrec by lia. do 2 f_equal. nia.
      * assert (g = n / K) by lia. subst g.
        rewrite app_nth2 by lia.
        replace (Z.to_nat (n / K) - length (loss_batch l))%nat with 0%nat by lia.
        cbn [nth]. f_equal. nia.
    + intros j Hj. destruct (Hcov j Hj) as [Hp | (g & Hg & Hjg)].
      * exists (pending (ledger_of evs)). split; [| exact Hp].
        apply in_or_app. right. left. reflexivity.
      * exists g. split; [| exact Hjg]. apply in_or_app. left. exact Hg.
Qed.

(** Over a non-empty loader and with a positive period, lines 35-80
    end normally, and [pass_post] holds of the events they add. *)
Lemma epoch_pass_ok (batches : list Batch) (w : World) :
  0 < update_grad_every params -> batches <> [] ->
  exists l n' evs,
    epoch_pass params batches w = Ok (l, mkWorld n' (trace w ++ evs))
    /\ pass_post (Z.of_nat (length batches)) l evs.
Proof.
  intros HK Hne.
  assert (Hn : 0 < Z.of_nat (length batches)) by (destruct batches; [congruence | cbn; lia]).
  destruct (training_loop_inv (fun i l _ evs => loop_inv i l evs)
              ltac:(lia)
              (fun i l n evs b H => loop_inv_step i l n evs b HK H)
              batches 0 (mkLocals [] Accumulate_new None None)
              (model_train (net w)) (trace w) [] loop_inv_init)
    as (l & n' & evs & E & Hinv).
  rewrite Z.add_0_l in Hinv. rewrite app_nil_r in E.
  pose proof (loop_else_post _ l evs HK Hn Hinv) as Hpost.
  destruct Hinv as (_ & _ & _ & _ & _ & Hloc & _).
  destruct (Hloc Hn) as [Evi Evl].
  unfold epoch_pass, bind, update_net. rewrite E.
  rewrite (loop_else_eq l n' _ _ _ ltac:(lia) Evi Evl).
  replace (Z.of_nat (length batches) - 1 + 1) with (Z.of_nat (length batches)) by lia.
  destruct (Z.of_nat (length batches) mod update_grad_every params =? 0).
  - exists l, n', evs. split; [reflexivity | exact Hpost].
  - destruct Hpost as (x & Ex & Hpost).
    rewrite Evl in Ex. injection Ex as <-.
    eexists _, _, (evs ++ [OptimizerStep; ZeroGrad]).
    split; [rewrite <- app_assoc; reflexivity | exact Hpost].
Qed.

Lemma dict_get_set {V : Type} (k : string) (v : V) (d : list (string * V)) :
  dict_get k (dict_set k v d) = Some v.
Proof.
  induction d as [|[k' v'] d IH]; cbn.
  - rewrite String.eqb_refl. reflexivity.
  - destruct (String.eqb k k') eqn:E; cbn; rewrite ?String.eqb_refl, ?E; auto.
Qed.

(** Line 86 divides by the number of recorded losses: it succeeds
    exactly when one was recorded. *)
Lemma loss_average_ok (xs : list float) :
  xs <> [] ->
  loss_average xs
  = Ok (PrimFloat.div (PrimFloat.mul (py_sum xs) 1%float) (float_of_len (length xs))).
Proof. destruct xs; [congruence | reflexivity]. Qed.

(** [train_one_epoch] after a pass that recorded a loss. *)
Lemma train_one_epoch_eq (batches : list Batch) (w w' : World) (l : Locals) :
  epoch_pass params batches w = Ok (l, w') ->
  loss_batch l <> [] ->
  exists summary avg,
    train_one_epoch batches params metrics target_names w = Ok (summary, w')
    /\ loss_average (loss_batch l) = Ok avg
    /\ dict_get "loss_avg" summary = Some (inr avg).
Proof.
  intros E Hne.
  unfold train_one_epoch, bind. rewrite E.
  unfold summarize, bind, lift, ret. cbn [Accumulate_call].
  rewrite (loss_average_ok _ Hne).
  eexists _, _. split; [reflexivity |]. split; [reflexivity |].
  apply dict_get_set.
Qed.

Lemma ceil_div_pos (k n : Z) : 0 < k -> 0 < n -> 0 < ceil_div n k.
Proof. intros Hk Hn. pose proof (ceil_div_spec k n Hk). nia. Qed.


(** C2.  The loss recorded for accumulation group g is the loss of
    the last batch of that group, batch [group_end K N g], and the
    ["loss_avg"] of the returned summary is the mean of the recorded
    losses.  With K = 2 and observed batch losses
    [1.0, 2.0, 3.0, 4.0, 5.0] there are 3 optimizer steps, the
    recorded losses are [2.0, 4.0, 5.0] and ["loss_avg"] is their
    mean, not the mean of the five batch losses. *)
Theorem recorded_group_losses (batches : list Batch) (w : World) :
  0 < update_grad_every params -> batches <> [] ->
  exists l summary avg n' evs,
    epoch_pass params batches w = Ok (l, mkWorld n' (trace w ++ evs))
    /\ train_one_epoch batches params metrics target_names w
       = Ok (summary, mkWorld n' (trace w ++ evs))
    /\ Z.of_nat (length (losses_of evs)) = Z.of_nat (length batches)
    /\ Z.of_nat (length (loss_batch l))
       = ceil_div (Z.of_nat (length batches)) (update_grad_every params)
    /\ (forall g,
          0 <= g < ceil_div (Z.of_nat (length batches)) (update_grad_every params) ->
          nth (Z.to_nat g) (loss_batch l) 0%float
          = nth (Z.to_nat (group_end (update_grad_every params)
                             (Z.of_nat (length batches)) g))
                (losses_of evs) 0%float)
    /\ dict_get "loss_avg" summary = Some (inr avg)
    /\ avg = mean (loss_batch l)
    /\ (update_grad_every params = 2 ->
        losses_of evs = [1; 2; 3; 4; 5]%float ->
        optimizer_steps evs = 3
        /\ loss_batch l = [2; 4; 5]%float
        /\ avg = mean [2; 4; 5]%float
        /\ avg = 3.6666666666666665%float
        /\ avg <> mean [1; 2; 3; 4; 5]%float).
Proof.
  intros HK Hne.
  destruct (epoch_pass_ok batches w HK Hne) as (l & n' & evs & E & Hpost).
  destruct Hpost as (Hlen & _ & Hlb & Hst & Hrec & _ & _).
  assert (Hn : 0 < Z.of_nat (length batches))
    by (destruct batches; [congruence | cbn; lia]).
  pose proof (ceil_div_pos _ _ HK Hn) as Hc.
  assert (Hl : loss_batch l <> [])
    by (destruct (loss_batch l); [cbn in Hlb; lia | congruence]).
  destruct (train_one_epoch_eq batches w _ l E Hl) as (summary & avg & Et & Ea & Eg).
  rewrite (loss_average_ok _ Hl), float_mul_one_r in Ea.
  injection Ea as Ea. fold (mean (loss_batch l)) in Ea.
  exists l, summary, avg, n', evs.
  do 7 (split; [first [assumption | symmetry; assumption] |]).
  intros HK2 Hobs. rewrite HK2 in *. rewrite Hobs in *. cbn [length] in Hlen.
  rewrite <- Hlen in *.
  change (ceil_div (Z.of_nat 5) 2) with 3 in *.
  pose proof (Hrec 0 ltac:(lia)) as H0.
  pose proof (Hrec 1 ltac:(lia)) as H1.
  pose proof (Hrec 2 ltac:(lia)) as H2.
  destruct (loss_batch l) as [|a [|b [|c [|d r]]]]; cbn [length] in Hlb; try lia.
  vm_compute in H0, H1, H2. subst a b c avg.
  split; [exact Hst |]. split; [reflexivity |]. split; [reflexivity |].
  split; [reflexivity |].
  intros Habs.
  apply (f_equal (fun x => PrimFloat.leb x 3.5%float)) in Habs.
    vm_compute in Habs. discriminate.
Qed.

(** C10.  With a data loader of zero batches the loop leaves [i] and
    [loss] unbound, and [train_one_epoch] returns no summary: it
    raises UnboundLocalError for [i] at line 77, in the [else] clause
    of the loop, before the division of line 86. *)
Theorem empty_loader_unbound_local (w : World) :
  training_loop params 0 [] (mkLocals [] Accumulate_new None None)
    (mkWorld (model_train (net w)) (trace w))
  = Ok (mkLocals [] Accumulate_new None None,
        mkWorld (model_train (net w)) (trace w))
  /\ epoch_pass params [] w = Raise (UnboundLocalError "i" 77)
  /\ train_one_epoch [] params metrics target_names w
     = Raise (UnboundLocalError "i" 77)
  /\ train_one_epoch [] params metrics target_names w
     <> Raise (ZeroDivisionError 86).
Proof. repeat split. discriminate. Qed.


(** C8, amended.  A prediction is binarized to 1 exactly when it is
    strictly above the threshold, so a score equal to the threshold
    gives 0, and threshold 0.5 with scores [0.4, 0.5, 0.6] gives
    [0, 0, 1]; the predictions of every batch are binarized and given
    to the accumulator, whatever the accumulation period. *)
Theorem binarize_strictly_above (batches : list Batch) (w : World) :
  0 < update_grad_every params -> batches <> [] ->
  (forall t s, binarize_score t s = 1 <-> PrimFloat.ltb t s = true)
  /\ (forall t s, PrimFloat.eqb t s = true -> binarize_score t s = 0)
  /\ (forall t, binarize_score t t = 0)
  /\ binarize 0.5%float [[0.4; 0.5; 0.6]%float] = [[0; 0; 1]]
  /\ exists l n' evs,
      epoch_pass params batches w = Ok (l, mkWorld n' (trace w ++ evs))
      /\ Z.of_nat (length (preds_of evs)) = Z.of_nat (length batches)
      /\ acc_outputs (accumulate l)
         = map (binarize (threshold params)) (preds_of evs)
      /\ fst (Accumulate_call (accumulate l))
         = concat (map (binarize (threshold params)) (preds_of evs)).
Proof.
  intros HK Hne.
  split; [| split; [| split; [| split; [reflexivity |]]]].
  - intros t s. unfold binarize_score. destruct (PrimFloat.ltb t s); split; congruence.
  - intros t s H. unfold binarize_score. rewrite (float_ltb_of_eqb _ _ H). reflexivity.
  - intros t. unfold binarize_score. rewrite float_ltb_irrefl. reflexivity.
  - destruct (epoch_pass_ok batches w HK Hne) as (l & n' & evs & E & Hpost).
    destruct Hpost as (_ & Hpl & _ & _ & _ & _ & Hacc).
    exists l, n', evs. repeat split; try assumption.
    cbn [Accumulate_call fst]. rewrite Hacc. reflexivity.
Qed.

(** ** The trace is only ever extended *)

(** A computation is framed when it reads nothing of the trace: run
    from a world with trace [tr], it does what it does from the empty
    trace, and leaves [tr] followed by the events it adds. *)
Definition framed {A : Type} (m : M A) : Prop :=
  forall n tr,
    m (mkWorld n tr)
    = match m (mkWorld n []) with
      | Ok (a, w) => Ok (a, mkWorld (net w) (tr ++ trace w))
      | Raise e => Raise e
      end.

Lemma framed_ret {A : Type} (a : A) : framed (ret a).
Proof. intros n tr. cbn. rewrite app_nil_r. reflexivity. Qed.

Lemma framed_lift {A : Type} (r : result A) : framed (lift r).
Proof. intros n tr. destruct r; cbn; rewrite ?app_nil_r; reflexivity. Qed.

Lemma framed_emit (e : event) : framed (emit e).
Proof. intros n tr. reflexivity. Qed.

Lemma framed_update_net (f : Net -> Net) : framed (update_net f).
Proof. intros n tr. cbn. rewrite app_nil_r. reflexivity. Qed.

Lemma framed_get_net : framed get_net.
Proof. intros n tr. cbn. rewrite app_nil_r. reflexivity. Qed.

Lemma framed_bind {A B : Type} (m : M A) (k : A -> M B) :
  framed m -> (forall a, framed (k a)) -> framed (bind m k).
Proof.
  intros Hm Hk n tr. unfold bind. rewrite (Hm n tr).
  destruct (m (mkWorld n [])) as [[a [n1 tr1]] | e]; [| reflexivity].
  cbn [net trace]. rewrite (Hk a n1 (tr ++ tr1)), (Hk a n1 tr1).
  destruct (k a (mkWorld n1 [])) as [[b [n2 tr2]] | e]; [| reflexivity].
  cbn [net trace]. rewrite app_assoc. reflexivity.
Qed.

Lemma framed_read_local {A : Type} (name : string) (lineno : Z) (v : option A) :
  framed (read_local name lineno v).
Proof. destruct v; [apply framed_ret | apply framed_lift]. Qed.

Ltac framed_tac :=
  repeat first
    [ apply framed_ret | apply framed_lift | apply framed_emit
    | apply framed_update_net | apply framed_get_net | apply framed_read_local
    | apply framed_bind; [| intros ?]
    | match goal with
      | |- framed (if ?c then _ else _) => destruct c
      | |- framed (match ?o with Some _ => _ | None => _ end) => destruct o
      | |- framed (let '(_, _) := ?p in _) => destruct p
      end ].

Lemma framed_loop_body (l : Locals) (i : Z) (b : Batch) : framed (loop_body params l i b).
Proof. unfold loop_body, optimizer_step, optimizer_zero_grad. framed_tac. Qed.

Lemma framed_training_loop (batches : list Batch) :
  forall i l, framed (training_loop params i batches l).
Proof.
  induction batches as [|b rest IH]; intros i l; cbn [training_loop].
  - apply framed_ret.
  - apply framed_bind; [apply framed_loop_body | intros l'; apply IH].
Qed.

Lemma framed_train_one_epoch :
  framed (train_one_epoch train_loader params metrics target_names).
Proof.
  unfold train_one_epoch, epoch_pass, loop_else, summarize,
    optimizer_step, optimizer_zero_grad.
  cbn [Accumulate_call].
  framed_tac. apply framed_training_loop.
Qed.

Lemma framed_epoch_body (e : Z) (bt bs : float) : framed (epoch_body e bt bs).
Proof.
  unfold epoch_body.
  apply framed_bind; [apply framed_train_one_epoch | intros _].
  framed_tac.
Qed.

Lemma framed_epoch_loop (epochs : list Z) :
  forall bt bs, framed (epoch_loop epochs bt bs).
Proof.
  induction epochs as [|e rest IH]; intros bt bs; cbn [epoch_loop].
  - apply framed_ret.
  - apply framed_bind; [apply framed_epoch_body | intros r].
    apply framed_bind; [apply IH | intros rs; apply framed_ret].
Qed.

(** ** The epoch loop *)

(** The events of the training loop, as opposed to file writes. *)
Definition training_event (e : event) : Prop :=
  match e with
  | SaveJson _ _ | SaveCheckpoint _ _ _ => False
  | _ => True
  end.

(** A computation emits [P] when every event it adds satisfies [P]. *)
Definition emits {A : Type} (P : event -> Prop) (m : M A) : Prop :=
  forall n tr a w,
    m (mkWorld n tr) = Ok (a, w) ->
    exists evs, trace w = tr ++ evs /\ Forall P evs.

Lemma emits_ret {A : Type} (P : event -> Prop) (a : A) : emits P (ret a).
Proof.
  intros n tr a' w H. injection H as <- <-. exists []. cbn.
  rewrite app_nil_r. auto.
Qed.

Lemma emits_lift {A : Type} (P : event -> Prop) (r : result A) : emits P (lift r).
Proof.
  intros n tr a w H. destruct r; cbn in H; [| discriminate].
  injection H as <- <-. exists []. cbn. rewrite app_nil_r. auto.
Qed.

Lemma emits_emit (P : event -> Prop) (e : event) : P e -> emits P (emit e).
Proof.
  intros He n tr a w H. injection H as <- <-. exists [e]. cbn. auto.
Qed.

Lemma emits_update_net (P : event -> Prop) (f : Net -> Net) : emits P (update_net f).
Proof.
  intros n tr a w H. injection H as <- <-. exists []. cbn.
  rewrite app_nil_r. auto.
Qed.

Lemma emits_get_net (P : event -> Prop) : emits P get_net.
Proof.
  intros n tr a w H. injection H as <- <-. exists []. cbn.
  rewrite app_nil_r. auto.
Qed.

Lemma emits_bind {A B : Type} (P : event -> Prop) (m : M A) (k : A -> M B) :
  emits P m -> (forall a, emits P (k a)) -> emits P (bind m k).
Proof.
  intros Hm Hk n tr b w H. unfold bind in H.
  destruct (m (mkWorld n tr)) as [[a [n1 tr1]] | e] eqn:E; [| discriminate].
  destruct (Hm _ _ _ _ E) as (evs1 & E1 & F1). cbn in E1. subst tr1.
  destruct (Hk a _ _ _ _ H) as (evs2 & E2 & F2).
  exists (evs1 ++ evs2). split.
  - rewrite E2. symmetry. apply app_assoc.
  - apply Forall_app. auto.
Qed.

Lemma emits_read_local {A : Type} (P : event -> Prop) (name : string) (lineno : Z)
      (v : option A) : emits P (read_local name lineno v).
Proof. destruct v; [apply emits_ret | apply emits_lift]. Qed.

Ltac emits_tac :=
  repeat first
    [ apply emits_ret | apply emits_lift | apply emits_emit; exact I
    | apply emits_update_net | apply emits_get_net | apply emits_read_local
    | apply emits_bind; [| intros ?]
    | match goal with
      | |- emits _ (if ?c then _ else _) => destruct c
      end ].

Lemma emits_training_loop (batches : list Batch) :
  forall i l, emits training_event (training_loop params i batches l).
Proof.
  induction batches as [|b rest IH]; intros i l; cbn [training_loop].
  - apply emits_ret.
  - apply emits_bind; [| intros l'; apply IH].
    unfold loop_body, optimizer_step, optimizer_zero_grad. emits_tac.
Qed.

Lemma emits_train_one_epoch :
  emits training_event (train_one_epoch train_loader params metrics target_names).
Proof.
  unfold train_one_epoch, epoch_pass, loop_else, summarize,
    optimizer_step, optimizer_zero_grad.
  cbn [Accumulate_call].
  emits_tac. apply emits_training_loop.
Qed.

(** [train_one_epoch] as a function of the torch objects: the objects
    after the epoch and the events of the epoch. *)
Definition train_net (n : Net) : result (Net * list event) :=
  match train_one_epoch train_loader params metrics target_names (mkWorld n []) with
  | Ok (_, w) => Ok (net w, trace w)
  | Raise e => Raise e
  end.

Lemma train_net_events (n n1 : Net) (evs : list event) :
  train_net n = Ok (n1, evs) -> Forall training_event evs.
Proof.
  unfold train_net. intros H.
  destruct (train_one_epoch _ _ _ _ _) as [[s [n2 tr2]] | e] eqn:E; [| discriminate].
  injection H as <- <-.
  destruct (emits_train_one_epoch _ _ _ _ E) as (evs & E' & F).
  cbn in E'. subst tr2. exact F.
Qed.

Lemma epoch_body_eq (e : Z) (bt bs : float) (n : Net) (tr : list event) :
  epoch_body e bt bs (mkWorld n tr)
  = match train_net n with
    | Ok (n1, evs) =>
        if save_every params =? 0 then Raise (ZeroDivisionError 178)
        else Ok (epoch_result e bt bs n1,
                 mkWorld n1 (tr ++ evs ++ epoch_events e bt bs n1))
    | Raise x => Raise x
    end.
Proof.
  unfold epoch_body, train_net. unfold bind at 1.
  rewrite (framed_train_one_epoch n tr).
  destruct (train_one_epoch _ _ _ _ (mkWorld n [])) as [[s [n1 evs]] | x]; [| reflexivity].
  cbn [net trace].
  unfold epoch_result, epoch_events, py_mod, bind, get_net, emit, lift, ret.
  cbn [net trace is_train_best is_test_best train_stats test_stats var_state].
  destruct (save_every params =? 0);
    destruct (PrimFloat.leb bt (macro_f1 (evaluate n1 train_loader))) eqn:E1;
    destruct (PrimFloat.leb bs (macro_f1 (evaluate n1 test_loader))) eqn:E2;
    cbn; rewrite ?E1, ?E2; cbn; repeat rewrite <- app_assoc; reflexivity.
Qed.

(** A successful run of the epoch loop over [epochs], entered with the
    best values [bt] and [bs] and the torch objects [n]: the states at
    the end of the iterations, the torch objects at the end, and the
    events of the loop. *)
Inductive loop_spec
  : list Z -> float -> float -> Net -> list Run -> Net -> list event -> Prop :=
| loop_spec_nil (bt bs : float) (n : Net) : loop_spec [] bt bs n [] n []
| loop_spec_cons (e : Z) (rest : list Z) (bt bs : float) (n n1 n' : Net)
                 (evs_t evs : list event) (rs : list Run) :
    train_net n = Ok (n1, evs_t) ->
    save_every params <> 0 ->
    loop_spec rest
      (best_train_macro_f1 (epoch_result e bt bs n1))
      (best_test_macro_f1 (epoch_result e bt bs n1)) n1 rs n' evs ->
    loop_spec (e :: rest) bt bs n (epoch_result e bt bs n1 :: rs) n'
      (evs_t ++ epoch_events e bt bs n1 ++ evs).

Lemma epoch_loop_spec (epochs : list Z) :
  forall bt bs n tr rs n' tr',
    epoch_loop epochs bt bs (mkWorld n tr) = Ok (rs, mkWorld n' tr')
    <-> exists evs, tr' = tr ++ evs /\ loop_spec epochs bt bs n rs n' evs.
Proof.
  induction epochs as [|e rest IH]; intros bt bs n tr rs n' tr'; cbn [epoch_loop].
  - split.
    + intros H. injection H as <- <- <-. exists []. rewrite app_nil_r.
      split; [reflexivity | constructor].
    + intros (evs & -> & H). inversion H; subst. rewrite app_nil_r. reflexivity.
  - unfold bind at 1. rewrite epoch_body_eq. split.
    + intros H.
      destruct (train_net n) as [[n1 evs_t] |] eqn:Et; [| discriminate].
      destruct (save_every params =? 0) eqn:ES; [discriminate |].
      unfold bind at 1 in H.
      destruct (epoch_loop rest _ _ _) as [[rs1 [n2 tr2]] |] eqn:El; [| discriminate].
      cbn -[epoch_events epoch_result app] in H. injection H as <- <- <-.
      apply IH in El. destruct El as (evs & -> & Hs).
      exists (evs_t ++ epoch_events e bt bs n1 ++ evs). split.
      * rewrite <- !app_assoc. reflexivity.
      * apply loop_spec_cons; [assumption | apply Z.eqb_neq; assumption | assumption].
    + intros (evs & -> & H). inversion H; subst.
      match goal with Ht : train_net n = _ |- _ => rewrite Ht end.
      match goal with Hs : save_every params <> 0 |- _ =>
        apply Z.eqb_neq in Hs; rewrite Hs end.
      unfold bind at 1.
      match goal with Hl : loop_spec rest _ _ _ _ _ _ |- _ =>
        rewrite (proj2 (IH _ _ _ _ _ _ _) (ex_intro _ _ (conj eq_refl Hl))) end.
      cbn -[epoch_events epoch_result app]. rewrite <- !app_assoc. reflexivity.
Qed.

(** Over a non-empty loader and with a positive period,
    [train_one_epoch] returns a summary. *)
Lemma train_one_epoch_ok (batches : list Batch) (w : World) :
  0 < update_grad_every params -> batches <> [] ->
  exists l summary n' evs,
    epoch_pass params batches w = Ok (l, mkWorld n' (trace w ++ evs))
    /\ train_one_epoch batches params metrics target_names w
       = Ok (summary, mkWorld n' (trace w ++ evs))
    /\ pass_post (Z.of_nat (length batches)) l evs.
Proof.
  intros HK Hne.
  destruct (epoch_pass_ok batches w HK Hne) as (l & n' & evs & E & Hpost).
  assert (Hn : 0 < Z.of_nat (length batches))
    by (destruct batches; [congruence | cbn; lia]).
  pose proof (ceil_div_pos _ _ HK Hn) as Hc.
  assert (Hl : loss_batch l <> []).
  { destruct Hpost as (_ & _ & Hlb & _).
    destruct (loss_batch l); [cbn in Hlb; lia | congruence]. }
  destruct (train_one_epoch_eq batches w _ l E Hl) as (summary & avg & Et & _).
  exists l, summary, n', evs. auto.
Qed.

Lemma train_net_ok (n : Net) :
  0 < update_grad_every params -> train_loader <> [] ->
  exists n1 evs, train_net n = Ok (n1, evs).
Proof.
  intros HK Hne.
  destruct (train_one_epoch_ok train_loader (mkWorld n []) HK Hne)
    as (l & summary & n' & evs & _ & E & _).
  unfold train_net. rewrite E. eauto.
Qed.

Lemma loop_spec_ok (epochs : list Z) :
  0 < update_grad_every params -> train_loader <> [] -> save_every params <> 0 ->
  forall bt bs n, exists rs n' evs, loop_spec epochs bt bs n rs n' evs.
Proof.
  intros HK Hne HS.
  induction epochs as [|e rest IH]; intros bt bs n.
  - exists [], n, []. constructor.
  - destruct (train_net_ok n HK Hne) as (n1 & evs_t & Et).
    destruct (IH (best_train_macro_f1 (epoch_result e bt bs n1))
                 (best_test_macro_f1 (epoch_result e bt bs n1)) n1)
      as (rs & n' & evs & Hs).
    eexists _, _, _. eapply loop_spec_cons; eassumption.
Qed.

(** The loop is a function of what it is entered with. *)
Lemma loop_spec_fun (epochs : list Z) (bt bs : float) (n : Net)
      (rs1 rs2 : list Run) (n1 n2 : Net) (evs1 evs2 : list event) :
  loop_spec epochs bt bs n rs1 n1 evs1 ->
  loop_spec epochs bt bs n rs2 n2 evs2 ->
  rs1 = rs2 /\ n1 = n2 /\ evs1 = evs2.
Proof.
  intros H1. revert rs2 n2 evs2.
  induction H1 as [| e rest bt bs n n1 n' evs_t evs rs Ht HS Hl IH];
    intros rs2 n2 evs2 H2; inversion H2; subst.
  - auto.
  - match goal with Ht2 : train_net n = Ok (?a, ?b) |- _ =>
      rewrite Ht in Ht2; injection Ht2 as <- <- end.
    match goal with Hl2 : loop_spec rest _ _ _ _ _ _ |- _ =>
      destruct (IH _ _ _ Hl2) as (-> & -> & ->) end.
    auto.
Qed.

(** *** What a run of the loop adds up to *)

(** The best trackers along the states [rs] of a run entered with the
    best values [bt] and [bs]: lines 123, 126, 146-147 and 155-156. *)
Fixpoint tracks (bt bs : float) (rs : list Run) : Prop :=
  match rs with
  | [] => True
  | r :: rest =>
      is_train_best r = PrimFloat.leb bt (train_macro_f1 r)
      /\ is_test_best r = PrimFloat.leb bs (test_macro_f1 r)
      /\ best_train_macro_f1 r = (if is_train_best r then train_macro_f1 r else bt)
      /\ best_test_macro_f1 r = (if is_test_best r then test_macro_f1 r else bs)
      /\ tracks (best_train_macro_f1 r) (best_test_macro_f1 r) rest
  end.

Definition float_le (a b : float) : Prop := PrimFloat.leb a b = true.

(** The [utils.save_checkpoint] calls of a trace, in order: the record,
    [is_best] and the flag of the periodic snapshot. *)
Definition checkpoint_saves (evs : list event) : list (Checkpoint * bool * bool) :=
  flat_map (fun e => match e with
                     | SaveCheckpoint st b p => [(st, b, p)]
                     | _ => []
                     end) evs.

(** The record built at lines 170-174 in the iteration that ends in
    state [r]. *)
Definition epoch_checkpoint (r : Run) : Checkpoint :=
  mkCheckpoint (var_epoch r + 1) (state_dict (var_net r)) (optim_state_dict (var_net r)).

(** The call of line 176 in the iteration that ends in state [r]. *)
Definition epoch_save (r : Run) : Checkpoint * bool * bool :=
  (epoch_checkpoint r, is_test_best r, (var_epoch r + 1) mod save_every params =? 0).

(** The writes of the best summaries in the iteration that ends in [r]. *)
Definition best_written (evs : list event) (r : Run) : Prop :=
  (is_train_best r = true ->
   In (SaveJson BestTrainJson (train_stats r)) evs
   /\ stats_epoch (train_stats r) = Some (var_epoch r + 1))
  /\ (is_test_best r = true ->
      In (SaveJson BestTestJson (test_stats r)) evs
      /\ stats_epoch (test_stats r) = Some (var_epoch r + 1)
      /\ exists p, In (SaveCheckpoint (epoch_checkpoint r) true p) evs).

Lemma checkpoint_saves_app (evs evs' : list event) :
  checkpoint_saves (evs ++ evs') = checkpoint_saves evs ++ checkpoint_saves evs'.
Proof. apply flat_map_app. Qed.

Lemma checkpoint_saves_training (evs : list event) :
  Forall training_event evs -> checkpoint_saves evs = [].
Proof.
  induction 1 as [|e evs He _ IH]; [reflexivity |].
  destruct e; cbn in *; try assumption; contradiction.
Qed.

Lemma checkpoint_saves_epoch (e : Z) (bt bs : float) (n : Net) :
  checkpoint_saves (epoch_events e bt bs n) = [epoch_save (epoch_result e bt bs n)].
Proof.
  unfold epoch_events, epoch_save. cbv zeta.
  set (r := epoch_result e bt bs n).
  change (epoch_checkpoint r) with (var_state r).
  change (var_epoch r) with e.
  destruct (is_train_best r); destruct (is_test_best r); reflexivity.
Qed.

Lemma best_written_epoch (e : Z) (bt bs : float) (n : Net) :
  best_written (epoch_events e bt bs n) (epoch_result e bt bs n).
Proof.
  unfold best_written, epoch_events. cbv zeta.
  set (r := epoch_result e bt bs n).
  assert (Et : is_train_best r = true ->
               stats_epoch (train_stats r) = Some (var_epoch r + 1)).
  { unfold r, epoch_result. cbn. intros ->. reflexivity. }
  assert (Es : is_test_best r = true ->
               stats_epoch (test_stats r) = Some (var_epoch r + 1)).
  { unfold r, epoch_result. cbn. intros ->. reflexivity. }
  split; intros H; rewrite H.
  - split; [| auto]. cbn. auto.
  - split; [| split; [auto |]].
    + apply in_or_app. right. apply in_or_app. right. cbn. auto.
    + exists ((e + 1) mod save_every params =? 0).
      apply in_or_app. right. apply in_or_app. right. apply in_or_app. right.
      left. reflexivity.
Qed.

Lemma best_written_app_l (evs evs' : list event) (r : Run) :
  best_written evs r -> best_written (evs ++ evs') r.
Proof.
  intros [Ht Hs]. split.
  - intros H. destruct (Ht H) as [Hi He]. split; [| exact He].
    apply in_or_app. left. exact Hi.
  - intros H. destruct (Hs H) as (Hi & He & p & Hp). split; [| split; [exact He |]].
    + apply in_or_app. left. exact Hi.
    + exists p. apply in_or_app. left. exact Hp.
Qed.

Lemma best_written_app_r (evs evs' : list event) (r : Run) :
  best_written evs r -> best_written (evs' ++ evs) r.
Proof.
  intros [Ht Hs]. split.
  - intros H. destruct (Ht H) as [Hi He]. split; [| exact He].
    apply in_or_app. right. exact Hi.
  - intros H. destruct (Hs H) as (Hi & He & p & Hp). split; [| split; [exact He |]].
    + apply in_or_app. right. exact Hi.
    + exists p. apply in_or_app. right. exact Hp.
Qed.

Lemma last_cons_default {A : Type} (l : list A) :
  forall a b d d', last (a :: l) d = last (b :: a :: l) d'.
Proof.
  induction l as [|x l IH]; intros a b d d'; [reflexivity |].
  change (last (a :: x :: l) d) with (last (x :: l) d).
  change (last (b :: a :: x :: l) d') with (last (a :: x :: l) d').
  rewrite <- (IH x a d d'). reflexivity.
Qed.

Lemma loop_spec_facts (epochs : list Z) (bt bs : float) (n n' : Net)
      (rs : list Run) (evs : list event) :
  loop_spec epochs bt bs n rs n' evs ->
  map var_epoch rs = epochs
  /\ tracks bt bs rs
  /\ checkpoint_saves evs = map epoch_save rs
  /\ Forall (fun r => var_state r = epoch_checkpoint r) rs
  /\ n' = last (map var_net rs) n
  /\ Forall (best_written evs) rs.
Proof.
  induction 1 as [| e rest bt bs n n1 n' evs_t evs rs Ht HS Hl IH].
  - cbn. repeat split; constructor.
  - destruct IH as (He & Htr & Hck & Hst & Hn & Hb).
    split; [cbn; f_equal; exact He |].
    split; [cbn; auto |].
    split.
    { rewrite !checkpoint_saves_app, checkpoint_saves_epoch,
        (checkpoint_saves_training _ (train_net_events _ _ _ Ht)), Hck.
      reflexivity. }
    split; [constructor; [reflexivity | exact Hst] |].
    split.
    { rewrite Hn. cbn [map]. destruct (map var_net rs) as [|n0 l]; [reflexivity |].
      apply last_cons_default. }
    constructor.
    + apply best_written_app_r, best_written_app_l, best_written_epoch.
    + eapply Forall_impl; [| exact Hb]. intros r Hr.
      apply best_written_app_r, best_written_app_r. exact Hr.
Qed.

(** *** The whole of train_and_evaluate *)

Lemma resume_none (disk : string -> option Checkpoint) (exp_dir : string) (w : World) :
  resume disk exp_dir None w = Ok (0, w).
Proof. reflexivity. Qed.

Lemma resume_some (disk : string -> option Checkpoint) (exp_dir f : string)
      (ck : Checkpoint) (w : World) :
  disk (path_join exp_dir (f ++ ".pth.tar")) = Some ck ->
  resume disk exp_dir (Some f) w
  = Ok (epoch ck + 1,
        mkWorld (load_state_dict (ck_state_dict ck) (ck_optim_dict ck) (net w))
                (trace w)).
Proof.
  intros H. unfold resume, load_checkpoint, bind. rewrite H. reflexivity.
Qed.

Lemma final_save_snoc (rs0 : list Run) (r : Run) (w : World) :
  final_save (rs0 ++ [r]) w
  = Ok (tt, mkWorld (net w)
              (trace w ++ [SaveCheckpoint (var_state r) (is_test_best r) true])).
Proof. unfold final_save. rewrite rev_app_distr. reflexivity. Qed.

Lemma py_range_cons (a b : Z) :
  a < b -> py_range a b = a :: py_range (a + 1) b.
Proof.
  intros H. unfold py_range.
  replace (Z.to_nat (b - a)) with (S (Z.to_nat (b - (a + 1)))) by lia.
  cbn [seq map]. rewrite <- seq_shift, map_map. f_equal; [lia |].
  apply map_ext. intros k. lia.
Qed.

Lemma py_range_nil (a b : Z) : b <= a -> py_range a b = [].
Proof.
  intros H. unfold py_range. replace (Z.to_nat (b - a)) with 0%nat by lia. reflexivity.
Qed.

Lemma train_and_evaluate_inv (disk : string -> option Checkpoint) (exp_dir : string)
      (restore_file : option string) (w w' : World) (rs : list Run) :
  train_and_evaluate disk exp_dir restore_file w = Ok (rs, w') ->
  exists start w0 rs0 r evs,
    resume disk exp_dir restore_file w = Ok (start, w0)
    /\ rs = rs0 ++ [r]
    /\ loop_spec (py_range start (num_epochs params)) 0%float 0%float
         (net w0) rs (net w') evs
    /\ trace w'
       = trace w0 ++ evs ++ [SaveCheckpoint (var_state r) (is_test_best r) true].
Proof.
  unfold train_and_evaluate. unfold bind at 1. intros H.
  destruct (resume disk exp_dir restore_file w) as [[start [n0 tr0]] |]; [| discriminate].
  unfold bind at 1 in H.
  destruct (epoch_loop _ _ _ _) as [[rs1 [n1 tr1]] |] eqn:El; [| discriminate].
  apply epoch_loop_spec in El. destruct El as (evs & -> & Hs).
  unfold bind in H.
  destruct (rev rs1) as [|r rrs] eqn:Er.
  - unfold final_save in H. rewrite Er in H. discriminate.
  - assert (E1 : rs1 = rev rrs ++ [r]).
    { rewrite <- (rev_involutive rs1), Er. reflexivity. }
    rewrite E1, final_save_snoc in H. cbn in H. injection H as <- <-.
    exists start, (mkWorld n0 tr0), (rev rrs), r, evs.
    cbn [net trace]. rewrite <- E1, <- app_assoc. auto.
Qed.

Lemma train_and_evaluate_of_spec (disk : string -> option Checkpoint) (exp_dir : string)
      (restore_file : option string) (w w0 : World) (start : Z)
      (rs0 : list Run) (r : Run) (n' : Net) (evs : list event) :
  resume disk exp_dir restore_file w = Ok (start, w0) ->
  loop_spec (py_range start (num_epochs params)) 0%float 0%float
    (net w0) (rs0 ++ [r]) n' evs ->
  train_and_evaluate disk exp_dir restore_file w
  = Ok (rs0 ++ [r],
        mkWorld n' (trace w0 ++ evs
                      ++ [SaveCheckpoint (var_state r) (is_test_best r) true])).
Proof.
  intros Hr Hs.
  unfold train_and_evaluate. unfold bind at 1. rewrite Hr.
  unfold bind at 1. destruct w0 as [n0 tr0].
  rewrite (proj2 (epoch_loop_spec _ _ _ _ _ _ _ _) (ex_intro _ evs (conj eq_refl Hs))).
  unfold bind. rewrite final_save_snoc. cbn. rewrite <- app_assoc. reflexivity.
Qed.

Lemma train_and_evaluate_ok (disk : string -> option Checkpoint) (exp_dir : string)
      (restore_file : option string) (w w0 : World) (start : Z) :
  0 < update_grad_every params -> train_loader <> [] -> save_every params <> 0 ->
  resume disk exp_dir restore_file w = Ok (start, w0) ->
  start < num_epochs params ->
  exists rs0 r n' evs,
    train_and_evaluate disk exp_dir restore_file w
    = Ok (rs0 ++ [r],
          mkWorld n' (trace w0 ++ evs
                        ++ [SaveCheckpoint (var_state r) (is_test_best r) true]))
    /\ loop_spec (py_range start (num_epochs params)) 0%float 0%float
         (net w0) (rs0 ++ [r]) n' evs.
Proof.
  intros HK Hne HS Hr Hlt.
  destruct (loop_spec_ok (py_range start (num_epochs params)) HK Hne HS
              0%float 0%float (net w0)) as (rs & n' & evs & Hs).
  destruct (loop_spec_facts _ _ _ _ _ _ _ Hs) as (He & _).
  assert (Hrs : rs <> []).
  { intros ->. rewrite (py_range_cons _ _ Hlt) in He. discriminate. }
  destruct (exists_last Hrs) as (rs0 & r & ->).
  exists rs0, r, n', evs. split; [| exact Hs].
  apply (train_and_evaluate_of_spec _ _ _ _ _ start); assumption.
Qed.

(** ** The best trackers and the checkpoints *)

Lemma tracks_sorted (rs : list Run) :
  forall bt bs,
    tracks bt bs rs ->
    PrimFloat.leb bt bt = true -> PrimFloat.leb bs bs = true ->
    StronglySorted float_le (bt :: map best_train_macro_f1 rs)
    /\ StronglySorted float_le (bs :: map best_test_macro_f1 rs).
Proof.
  induction rs as [|r rest IH]; intros bt bs Ht Hbt Hbs.
  - split; repeat constructor.
  - destruct Ht as (Eit & Eis & Ebt & Ebs & Hrest).
    assert (Lt : float_le bt (best_train_macro_f1 r)).
    { unfold float_le. rewrite Ebt, Eit.
      destruct (PrimFloat.leb bt (train_macro_f1 r)) eqn:E; assumption. }
    assert (Ls : float_le bs (best_test_macro_f1 r)).
    { unfold float_le. rewrite Ebs, Eis.
      destruct (PrimFloat.leb bs (test_macro_f1 r)) eqn:E; assumption. }
    destruct (IH _ _ Hrest (float_leb_refl_of_leb _ _ Lt) (float_leb_refl_of_leb _ _ Ls))
      as [St Ss].
    cbn [map]. split.
    + constructor; [exact St |]. constructor; [exact Lt |].
      apply StronglySorted_inv in St. destruct St as [_ F].
      eapply Forall_impl; [| exact F]. intros x Hx.
      exact (float_leb_trans _ _ _ Lt Hx).
    + constructor; [exact Ss |]. constructor; [exact Ls |].
      apply StronglySorted_inv in Ss. destruct Ss as [_ F].
      eapply Forall_impl; [| exact F]. intros x Hx.
      exact (float_leb_trans _ _ _ Ls Hx).
Qed.

(** C3.  In every epoch [is_train_best] and [is_test_best] are the
    comparisons [best <= macro_f1] against the best value the epoch is
    entered with (0.0 at first); on [true] the best value becomes the
    epoch's macro-F1, the stamped summary is written to the best file,
    and for the test partition the checkpoint is saved with [is_best];
    a macro-F1 equal to the best value counts.  For the test macro-F1
    sequence [0.10, 0.10, 0.05] the flags are [true, true, false]. *)
Theorem best_flags_greater_or_equal
        (disk : string -> option Checkpoint) (exp_dir : string)
        (restore_file : option string) (w w0 : World) (start : Z) :
  0 < update_grad_every params -> train_loader <> [] -> save_every params <> 0 ->
  resume disk exp_dir restore_file w = Ok (start, w0) ->
  start < num_epochs params ->
  exists rs w',
    train_and_evaluate disk exp_dir restore_file w = Ok (rs, w')
    /\ tracks 0%float 0%float rs
    /\ Forall (best_written (trace w')) rs
    /\ (forall bt bs r rest,
          tracks bt bs (r :: rest) ->
          PrimFloat.eqb bs (test_macro_f1 r) = true ->
          is_test_best r = true /\ best_test_macro_f1 r = test_macro_f1 r)
    /\ (map test_macro_f1 rs = [0.10; 0.10; 0.05]%float ->
        map is_test_best rs = [true; true; false]).
Proof.
  intros HK Hne HS Hr Hlt.
  destruct (train_and_evaluate_ok disk exp_dir restore_file w w0 start HK Hne HS Hr Hlt)
    as (rs0 & r & n' & evs & E & Hs).
  destruct (loop_spec_facts _ _ _ _ _ _ _ Hs) as (_ & Htr & _ & _ & _ & Hb).
  eexists _, _. split; [exact E |]. split; [exact Htr |]. cbn [trace].
  split; [| split].
  - eapply Forall_impl; [| exact Hb]. intros x Hx.
    apply best_written_app_r, best_written_app_l. exact Hx.
  - intros bt bs x rest (_ & Eis & _ & Ebs & _) Heq.
    rewrite Ebs, Eis, (float_leb_of_eqb _ _ Heq). auto.
  - intros Hf.
    destruct (rs0 ++ [r]) as [|r1 [|r2 [|r3 [|r4 rest]]]]; try discriminate.
    cbn in Hf. injection Hf as E1 E2 E3.
    destruct Htr as (_ & Ei1 & _ & Eb1 & _ & Ei2 & _ & Eb2 & _ & Ei3 & _).
    rewrite E1 in Ei1. rewrite Ei1, E1 in Eb1. cbn in Eb1.
    rewrite Eb1, E2 in Ei2. rewrite Ei2, E2 in Eb2. cbn in Eb2.
    rewrite Eb2, E3 in Ei3.
    cbn [map]. rewrite Ei1, Ei2, Ei3. reflexivity.
Qed.

(** C9.  Along a run, the values of [best_train_macro_f1] and of
    [best_test_macro_f1], from the initial 0.0 on, are non-decreasing:
    each is [<=] every later one. *)
Theorem best_values_nondecreasing
        (disk : string -> option Checkpoint) (exp_dir : string)
        (restore_file : option string) (w w0 : World) (start : Z) :
  0 < update_grad_every params -> train_loader <> [] -> save_every params <> 0 ->
  resume disk exp_dir restore_file w = Ok (start, w0) ->
  start < num_epochs params ->
  exists rs w',
    train_and_evaluate disk exp_dir restore_file w = Ok (rs, w')
    /\ StronglySorted float_le (0%float :: map best_train_macro_f1 rs)
    /\ StronglySorted float_le (0%float :: map best_test_macro_f1 rs).
Proof.
  intros HK Hne HS Hr Hlt.
  destruct (train_and_evaluate_ok disk exp_dir restore_file w w0 start HK Hne HS Hr Hlt)
    as (rs0 & r & n' & evs & E & Hs).
  destruct (loop_spec_facts _ _ _ _ _ _ _ Hs) as (_ & Htr & _).
  eexists _, _. split; [exact E |].
  apply (tracks_sorted _ _ _ Htr); reflexivity.
Qed.

(** C7.  Every epoch [e] of a run calls [utils.save_checkpoint] once,
    with the record of epoch [e + 1] and the state of the model and the
    optimizer at the end of the epoch, [is_best = is_test_best] and the
    periodic flag [(e + 1) % save_every == 0]; after the loop there is
    one more call, with the record and [is_test_best] of the last epoch
    and the periodic flag [True]. *)
Theorem checkpoint_saves_of_run
        (disk : string -> option Checkpoint) (exp_dir : string)
        (restore_file : option string) (w w0 : World) (start : Z) :
  0 < update_grad_every params -> train_loader <> [] -> save_every params <> 0 ->
  resume disk exp_dir restore_file w = Ok (start, w0) ->
  start < num_epochs params ->
  exists rs0 r w' evs,
    train_and_evaluate disk exp_dir restore_file w = Ok (rs0 ++ [r], w')
    /\ trace w' = trace w0 ++ evs
    /\ map var_epoch (rs0 ++ [r]) = py_range start (num_epochs params)
    /\ net w' = var_net r
    /\ checkpoint_saves evs
       = map epoch_save (rs0 ++ [r]) ++ [(epoch_checkpoint r, is_test_best r, true)].
Proof.
  intros HK Hne HS Hr Hlt.
  destruct (train_and_evaluate_ok disk exp_dir restore_file w w0 start HK Hne HS Hr Hlt)
    as (rs0 & r & n' & evs & E & Hs).
  destruct (loop_spec_facts _ _ _ _ _ _ _ Hs) as (He & _ & Hck & Hst & Hn & _).
  eexists rs0, r, _, _. split; [exact E |]. cbn [trace net].
  split; [reflexivity |]. split; [exact He |]. split.
  - rewrite Hn, map_app. cbn [map]. apply last_last.
  - rewrite checkpoint_saves_app, Hck. cbn. f_equal.
    apply Forall_app in Hst. destruct Hst as [_ Hst].
    apply Forall_inv in Hst. rewrite Hst. reflexivity.
Qed.

(** ** Resuming *)

Lemma last_cons {A : Type} (l : list A) : forall a d, last (a :: l) d = last l a.
Proof.
  induction l as [|x l IH]; intros a d; [reflexivity |].
  change (last (a :: x :: l) d) with (last (x :: l) d).
  rewrite (IH x d), (IH x a). reflexivity.
Qed.

Lemma app_inj_length {A : Type} (l1 l1' l2 l2' : list A) :
  length l1 = length l1' -> l1 ++ l2 = l1' ++ l2' -> l1 = l1' /\ l2 = l2'.
Proof.
  revert l1'. induction l1 as [|a l1 IH]; intros [|a' l1'] Hl H; try discriminate.
  - auto.
  - cbn in H. injection H as -> H. injection Hl as Hl.
    destruct (IH _ Hl H) as [-> ->]. auto.
Qed.

Lemma length_py_range (a b : Z) : Z.of_nat (length (py_range a b)) = Z.max 0 (b - a).
Proof. unfold py_range. rewrite length_map, length_seq. lia. Qed.

Lemma py_range_app (a s b : Z) :
  a <= s <= b -> py_range a b = py_range a s ++ py_range s b.
Proof.
  remember (Z.to_nat (s - a)) as k eqn:Ek. revert a Ek.
  induction k as [|k IH]; intros a Ek H.
  - replace s with a by lia. rewrite (py_range_nil a a) by lia. reflexivity.
  - rewrite (py_range_cons a b), (py_range_cons a s) by lia.
    cbn [app]. f_equal. apply IH; lia.
Qed.

(** A run of the loop over [l1 ++ l2] is a run over [l1] followed by a
    run over [l2], entered with what the first one ends with. *)
Lemma loop_spec_app_inv (l1 l2 : list Z) :
  forall bt bs n rs n' evs,
    loop_spec (l1 ++ l2) bt bs n rs n' evs ->
    exists rs1 rs2 n1 evs1 evs2,
      rs = rs1 ++ rs2 /\ evs = evs1 ++ evs2
      /\ loop_spec l1 bt bs n rs1 n1 evs1
      /\ loop_spec l2 (last (map best_train_macro_f1 rs1) bt)
           (last (map best_test_macro_f1 rs1) bs) n1 rs2 n' evs2.
Proof.
  induction l1 as [|e l1 IH]; intros bt bs n rs n' evs H.
  - exists [], rs, n, [], evs. cbn. repeat split; try assumption. constructor.
  - cbn [app] in H. inversion H; subst.
    match goal with Hl : loop_spec (l1 ++ l2) _ _ _ _ _ _ |- _ =>
      destruct (IH _ _ _ _ _ _ Hl) as (rs1 & rs2 & n2 & evs1 & evs2 & -> & -> & Ha & Hb)
    end.
    exists (epoch_result e bt bs n1 :: rs1), rs2, n2,
      (evs_t ++ epoch_events e bt bs n1 ++ evs1), evs2.
    split; [reflexivity |]. split; [rewrite <- !app_assoc; reflexivity |].
    split; [eapply loop_spec_cons; eassumption |].
    cbn [map]. rewrite !last_cons. exact Hb.
Qed.

(** The states of the torch objects and the scores of a run do not
    depend on the best values it is entered with. *)
Lemma loop_spec_restart (bt' bs' : float) (epochs : list Z) (bt bs : float)
      (n n' : Net) (rs : list Run) (evs : list event) :
  loop_spec epochs bt bs n rs n' evs ->
  exists rs' evs',
    loop_spec epochs bt' bs' n rs' n' evs'
    /\ map var_net rs' = map var_net rs
    /\ map train_macro_f1 rs' = map train_macro_f1 rs
    /\ map test_macro_f1 rs' = map test_macro_f1 rs.
Proof.
  intros H. revert bt' bs'.
  induction H as [| e rest bt bs n n1 n' evs_t evs rs Ht HS Hl IH]; intros bt' bs'.
  - exists [], []. repeat split. constructor.
  - destruct (IH (best_train_macro_f1 (epoch_result e bt' bs' n1))
                 (best_test_macro_f1 (epoch_result e bt' bs' n1)))
      as (rs' & evs' & Hs & E1 & E2 & E3).
    eexists (_ :: rs'), _. split; [eapply loop_spec_cons; eassumption |].
    cbn [map]. rewrite E1, E2, E3. repeat split.
Qed.

(** Two runs of the loop entered with the same torch objects go through
    the same states and scores, epoch after epoch, for as long as both
    last: neither the epoch numbers nor the best values they are entered
    with bear on training and evaluation. *)
Lemma loop_spec_agree (l1 : list Z) (bt1 bs1 : float) (n : Net)
      (rs1 : list Run) (n1 : Net) (evs1 : list event) :
  loop_spec l1 bt1 bs1 n rs1 n1 evs1 ->
  forall l2 bt2 bs2 rs2 n2 evs2,
    loop_spec l2 bt2 bs2 n rs2 n2 evs2 ->
    forall k r1 r2,
      nth_error rs1 k = Some r1 -> nth_error rs2 k = Some r2 ->
      var_net r1 = var_net r2
      /\ train_macro_f1 r1 = train_macro_f1 r2
      /\ test_macro_f1 r1 = test_macro_f1 r2.
Proof.
  induction 1 as [| e rest bt bs n na n' evs_t evs rs Ht HS Hl IH];
    intros l2 bt2 bs2 rs2 n2 evs2 H2 k r1 r2 E1 E2.
  - destruct k; discriminate.
  - inversion H2; subst; [destruct k; discriminate |].
    match goal with Ht2 : train_net n = Ok (?a, ?b) |- _ =>
      rewrite Ht in Ht2; injection Ht2 as <- <- end.
    destruct k as [|k]; cbn [nth_error] in E1, E2.
    + injection E1 as <-. injection E2 as <-. repeat split.
    + match goal with Hl2 : loop_spec _ _ _ na _ _ _ |- _ =>
        exact (IH _ _ _ _ _ _ Hl2 k r1 r2 E1 E2) end.
Qed.

(** C5, amended.  A run resumed from the checkpoint record [ck], whatever
    the record holds, with [epoch ck + 1 < num_epochs], a non-empty
    train loader, a positive period and [save_every <> 0], completes and
    goes through the epochs [epoch ck + 1 .. num_epochs - 1] with both
    best trackers restarted at 0.0: its decisions and best values are
    those of trackers that start at 0.0 on the resumed run's own scores.
    When the restored state is the state that an uninterrupted run had
    after its first epochs [rs1], the k-th epoch of the resumed run has
    the model state and the macro-F1 scores of the k-th epoch that
    followed in the uninterrupted run, for as long as both have one.
    When [rs1] has [epoch ck + 1] epochs, the resumed run has the model
    states and the scores of the rest of the uninterrupted run, and it
    is that rest, trackers and decisions included, when the best values
    of the uninterrupted run were both still 0.0 after [rs1]. *)
Theorem resumed_run_restarts_trackers
        (disk : string -> option Checkpoint) (exp_dir f : string) (ck : Checkpoint)
        (wr : World) :
  0 < update_grad_every params -> train_loader <> [] -> save_every params <> 0 ->
  disk (path_join exp_dir (f ++ ".pth.tar")) = Some ck ->
  epoch ck + 1 < num_epochs params ->
  exists rs' w',
    train_and_evaluate disk exp_dir (Some f) wr = Ok (rs', w')
    /\ map var_epoch rs' = py_range (epoch ck + 1) (num_epochs params)
    /\ tracks 0%float 0%float rs'
    /\ forall (w w1 : World) (rs1 rs2 : list Run),
        train_and_evaluate disk exp_dir None w = Ok (rs1 ++ rs2, w1) ->
        load_state_dict (ck_state_dict ck) (ck_optim_dict ck) (net wr)
        = last (map var_net rs1) (net w) ->
        (forall k r' r2,
            nth_error rs' k = Some r' -> nth_error rs2 k = Some r2 ->
            var_net r' = var_net r2
            /\ train_macro_f1 r' = train_macro_f1 r2
            /\ test_macro_f1 r' = test_macro_f1 r2)
        /\ (Z.of_nat (length rs1) = epoch ck + 1 ->
            map var_net rs' = map var_net rs2
            /\ map train_macro_f1 rs' = map train_macro_f1 rs2
            /\ map test_macro_f1 rs' = map test_macro_f1 rs2
            /\ (last (map best_train_macro_f1 rs1) 0%float = 0%float ->
                last (map best_test_macro_f1 rs1) 0%float = 0%float ->
                rs' = rs2)).
Proof.
  intros HK Hne HS Hd Hlt.
  pose proof (resume_some disk exp_dir f ck wr Hd) as Hr.
  destruct (train_and_evaluate_ok _ _ _ _ _ _ HK Hne HS Hr Hlt)
    as (rs0 & r & n' & evs & E & Hs').
  cbn [net] in Hs'.
  destruct (loop_spec_facts _ _ _ _ _ _ _ Hs') as (He' & Htr' & _).
  eexists _, _. split; [exact E |]. split; [exact He' |]. split; [exact Htr' |].
  intros w w1 rs1 rs2 Hu Hn.
  destruct (train_and_evaluate_inv _ _ _ _ _ _ Hu)
    as (start & w0 & rsa & ra & evsu & Hru & Hsnoc & Hl & _).
  rewrite resume_none in Hru. injection Hru as <- <-.
  destruct (loop_spec_facts _ _ _ _ _ _ _ Hl) as (Heu & _).
  assert (Hlen : Z.of_nat (length rs1) + Z.of_nat (length rs2)
                 = Z.max 0 (num_epochs params - 0)).
  { rewrite <- length_py_range, <- Heu, length_map, length_app. lia. }
  assert (Hpos : 0 < Z.of_nat (length rs1) + Z.of_nat (length rs2)).
  { apply (f_equal (@length Run)) in Hsnoc. rewrite !length_app in Hsnoc.
    cbn [length] in Hsnoc. lia. }
  rewrite (py_range_app 0 (Z.of_nat (length rs1)) (num_epochs params)) in Hl by lia.
  destruct (loop_spec_app_inv _ _ _ _ _ _ _ _ Hl)
    as (rs1' & rs2' & n1 & evs1 & evs2 & Ers & _ & H1 & H2).
  destruct (loop_spec_facts _ _ _ _ _ _ _ H1) as (He1 & _ & _ & _ & Hn1 & _).
  assert (Hlen1 : length rs1 = length rs1').
  { apply Nat2Z.inj. rewrite <- (length_map var_epoch rs1'), He1, length_py_range. lia. }
  destruct (app_inj_length _ _ _ _ Hlen1 Ers) as [<- <-].
  rewrite Hn, <- Hn1 in Hs'.
  split.
  - intros k r' r2. exact (loop_spec_agree _ _ _ _ _ _ _ Hs' _ _ _ _ _ _ H2 k r' r2).
  - intros Hc. rewrite Hc in H2.
    destruct (loop_spec_restart 0%float 0%float _ _ _ _ _ _ _ H2)
      as (rs'' & evs'' & Hs'' & E1 & E2 & E3).
    destruct (loop_spec_fun _ _ _ _ _ _ _ _ _ _ Hs' Hs'') as (<- & _).
    do 3 (split; [assumption |]).
    intros Ebt Ebs. rewrite Ebt, Ebs in H2.
    destruct (loop_spec_fun _ _ _ _ _ _ _ _ _ _ Hs' H2) as (Eq & _). exact Eq.
Qed.

(** * Further properties of the two functions *)

(** ** Runs that end with an exception *)

(** When [start_epoch] is not below [num_epochs] the loop body never
    runs, [state] stays unbound, and the save of line 182 raises
    UnboundLocalError: nothing is trained and nothing is saved. *)
Theorem no_epoch_unbound_state
        (disk : string -> option Checkpoint) (exp_dir : string)
        (restore_file : option string) (w w0 : World) (start : Z) :
  resume disk exp_dir restore_file w = Ok (start, w0) ->
  num_epochs params <= start ->
  epoch_loop (py_range start (num_epochs params)) 0%float 0%float w0 = Ok ([], w0)
  /\ train_and_evaluate disk exp_dir restore_file w
     = Raise (UnboundLocalError "state" 182).
Proof.
  intros Hr Hle. split.
  - rewrite (py_range_nil _ _ Hle). reflexivity.
  - unfold train_and_evaluate, bind. rewrite Hr, (py_range_nil _ _ Hle). reflexivity.
Qed.


(** ** The optimizer steps of a whole run *)

Lemma optimizer_steps_app (evs evs' : list event) :
  optimizer_steps (evs ++ evs') = optimizer_steps evs + optimizer_steps evs'.
Proof. unfold optimizer_steps. rewrite filter_app, length_app. lia. Qed.

Lemma optimizer_steps_epoch_events (e : Z) (bt bs : float) (n : Net) :
  optimizer_steps (epoch_events e bt bs n) = 0.
Proof.
  unfold epoch_events. cbv zeta.
  destruct (is_train_best (epoch_result e bt bs n));
    destruct (is_test_best (epoch_result e bt bs n)); reflexivity.
Qed.

Lemma train_net_steps (n n1 : Net) (evs : list event) :
  0 < update_grad_every params -> train_loader <> [] ->
  train_net n = Ok (n1, evs) ->
  optimizer_steps evs
  = ceil_div (Z.of_nat (length train_loader)) (update_grad_every params).
Proof.
  intros HK Hne Ht.
  destruct (train_one_epoch_ok train_loader (mkWorld n []) HK Hne)
    as (l & summary & n' & evs' & _ & E & Hpost).
  unfold train_net in Ht. rewrite E in Ht. cbn in Ht. injection Ht as _ <-.
  destruct Hpost as (_ & _ & _ & Hst & _). exact Hst.
Qed.

Lemma loop_spec_steps (epochs : list Z) (bt bs : float) (n n' : Net)
      (rs : list Run) (evs : list event) :
  0 < update_grad_every params -> train_loader <> [] ->
  loop_spec epochs bt bs n rs n' evs ->
  optimizer_steps evs
  = Z.of_nat (length epochs)
    * ceil_div (Z.of_nat (length train_loader)) (update_grad_every params).
Proof.
  intros HK Hne. induction 1 as [| e rest bt bs n n1 n' evs_t evs rs Ht HS Hl IH].
  - reflexivity.
  - rewrite !optimizer_steps_app, optimizer_steps_epoch_events, IH,
      (train_net_steps _ _ _ HK Hne Ht).
    cbn [length]. lia.
Qed.

(** Epochs compose: a run from [start_epoch] trains
    [num_epochs - start_epoch] epochs, and calls [optimizer.step()]
    that many times [ceil(N / K)] times, N the number of train batches
    and K the accumulation period. *)
Theorem run_optimizer_steps
        (disk : string -> option Checkpoint) (exp_dir : string)
        (restore_file : option string) (w w0 : World) (start : Z) :
  0 < update_grad_every params -> train_loader <> [] -> save_every params <> 0 ->
  resume disk exp_dir restore_file w = Ok (start, w0) ->
  start < num_epochs params ->
  exists rs w' evs,
    train_and_evaluate disk exp_dir restore_file w = Ok (rs, w')
    /\ trace w' = trace w0 ++ evs
    /\ Z.of_nat (length rs) = num_epochs params - start
    /\ optimizer_steps evs
       = (num_epochs params - start)
         * ceil_div (Z.of_nat (length train_loader)) (update_grad_every params).
Proof.
  intros HK Hne HS Hr Hlt.
  destruct (train_and_evaluate_ok disk exp_dir restore_file w w0 start HK Hne HS Hr Hlt)
    as (rs0 & r & n' & evs & E & Hs).
  destruct (loop_spec_facts _ _ _ _ _ _ _ Hs) as (He & _).
  eexists _, _, _. split; [exact E |]. cbn [trace]. split; [reflexivity |].
  split.
  - rewrite <- (length_map var_epoch), He, length_py_range. lia.
  - rewrite optimizer_steps_app, (loop_spec_steps _ _ _ _ _ _ _ HK Hne Hs),
      length_py_range.
    change (optimizer_steps [SaveCheckpoint _ _ _]) with 0. lia.
Qed.

(** ** The best values are running maxima *)

(** [m] is the largest of [b] and the scores [xs], NaN scores apart:
    it is one of them, and every one of them that is not NaN is [<= m]. *)
Definition is_max_of (b : float) (xs : list float) (m : float) : Prop :=
  In m (b :: xs)
  /\ forall x, In x (b :: xs) -> PrimFloat.leb x x = true -> PrimFloat.leb x m = true.

Lemma tracker_step_max (b f : float) :
  PrimFloat.leb b b = true ->
  let b' := if PrimFloat.leb b f then f else b in
  PrimFloat.leb b' b' = true
  /\ PrimFloat.leb b b' = true
  /\ (PrimFloat.leb f f = true -> PrimFloat.leb f b' = true)
  /\ (b' = b \/ b' = f).
Proof.
  intros Hb. cbv zeta. destruct (PrimFloat.leb b f) eqn:E.
  - split; [exact (float_leb_refl_of_leb _ _ E) |]. auto.
  - split; [exact Hb |]. split; [exact Hb |]. split; [| auto].
    intros Hf. destruct (float_leb_total b f Hb Hf) as [H | H]; [congruence | exact H].
Qed.

Lemma is_max_of_step (b f m : float) (xs : list float) :
  PrimFloat.leb b b = true ->
  is_max_of (if PrimFloat.leb b f then f else b) xs m ->
  is_max_of b (f :: xs) m.
Proof.
  intros Hb [Hin Hub].
  destruct (tracker_step_max b f Hb) as (Hb' & Hbb' & Hfb' & Hor).
  cbv zeta in *. set (b' := if PrimFloat.leb b f then f else b) in *.
  assert (Hm : PrimFloat.leb b' m = true) by (apply Hub; [left; reflexivity | exact Hb']).
  split.
  - destruct Hin as [<- | Hin].
    + destruct Hor as [-> | ->]; [left | right; left]; reflexivity.
    + right. right. exact Hin.
  - intros x [<- | [<- | Hx]] Hxx.
    + exact (float_leb_trans _ _ _ Hbb' Hm).
    + exact (float_leb_trans _ _ _ (Hfb' Hxx) Hm).
    + apply Hub; [right; exact Hx | exact Hxx].
Qed.

Lemma tracks_running_max (rs1 : list Run) :
  forall bt bs r rs2,
    tracks bt bs (rs1 ++ r :: rs2) ->
    PrimFloat.leb bt bt = true -> PrimFloat.leb bs bs = true ->
    is_max_of bt (map train_macro_f1 (rs1 ++ [r])) (best_train_macro_f1 r)
    /\ is_max_of bs (map test_macro_f1 (rs1 ++ [r])) (best_test_macro_f1 r).
Proof.
  induction rs1 as [|r0 rs1 IH]; intros bt bs r rs2 Ht Hbt Hbs.
  - destruct Ht as (Eit & Eis & Ebt & Ebs & _). cbn [app map].
    rewrite Ebt, Ebs, Eit, Eis.
    split; apply is_max_of_step; try assumption.
    + destruct (tracker_step_max bt (train_macro_f1 r) Hbt) as (H & _).
      split; [left; reflexivity |]. intros x [<- | []] _. exact H.
    + destruct (tracker_step_max bs (test_macro_f1 r) Hbs) as (H & _).
      split; [left; reflexivity |]. intros x [<- | []] _. exact H.
  - cbn [app] in Ht. destruct Ht as (Eit & Eis & Ebt & Ebs & Hrest).
    destruct (tracker_step_max bt (train_macro_f1 r0) Hbt) as (Ht' & _).
    destruct (tracker_step_max bs (test_macro_f1 r0) Hbs) as (Hs' & _).
    cbv zeta in Ht', Hs'. rewrite <- Eit, <- Ebt in Ht'. rewrite <- Eis, <- Ebs in Hs'.
    destruct (IH _ _ _ _ Hrest Ht' Hs') as [Mt Ms].
    cbn [app map]. split; apply is_max_of_step; try assumption.
    + rewrite <- Eit, <- Ebt. exact Mt.
    + rewrite <- Eis, <- Ebs. exact Ms.
Qed.

(** At the end of every epoch of a run, [best_train_macro_f1] and
    [best_test_macro_f1] are the largest of 0.0 and the macro-F1 scores
    of the run so far; a NaN score is passed over. *)
Theorem best_values_are_running_maxima
        (disk : string -> option Checkpoint) (exp_dir : string)
        (restore_file : option string) (w w0 : World) (start : Z) :
  0 < update_grad_every params -> train_loader <> [] -> save_every params <> 0 ->
  resume disk exp_dir restore_file w = Ok (start, w0) ->
  start < num_epochs params ->
  exists rs w',
    train_and_evaluate disk exp_dir restore_file w = Ok (rs, w')
    /\ forall rs1 r rs2,
        rs = rs1 ++ r :: rs2 ->
        is_max_of 0%float (map train_macro_f1 (rs1 ++ [r])) (best_train_macro_f1 r)
        /\ is_max_of 0%float (map test_macro_f1 (rs1 ++ [r])) (best_test_macro_f1 r).
Proof.
  intros HK Hne HS Hr Hlt.
  destruct (train_and_evaluate_ok disk exp_dir restore_file w w0 start HK Hne HS Hr Hlt)
    as (rs0 & r & n' & evs & E & Hs).
  destruct (loop_spec_facts _ _ _ _ _ _ _ Hs) as (_ & Htr & _).
  eexists _, _. split; [exact E |].
  intros rs1 r1 rs2 Ers. rewrite Ers in Htr.
  apply (tracks_running_max _ _ _ _ _ Htr); reflexivity.
Qed.

(** ** The JSON files of a run *)

(** The [utils.save_dict_to_json] calls of a trace, in order. *)
Definition json_writes (evs : list event) : list (json_path * Stats) :=
  flat_map (fun e => match e with
                     | SaveJson p s => [(p, s)]
                     | _ => []
                     end) evs.

(** The writes of the iteration that ends in state [r]: lines 138, 143,
    153 and 162. *)
Definition epoch_json (r : Run) : list (json_path * Stats) :=
  [(EpochTrainJson (var_epoch r + 1), evaluate (var_net r) train_loader);
   (EpochTestJson (var_epoch r + 1), evaluate (var_net r) test_loader)]
    ++ (if is_train_best r then [(BestTrainJson, train_stats r)] else [])
    ++ (if is_test_best r then [(BestTestJson, test_stats r)] else []).

Lemma json_writes_app (evs evs' : list event) :
  json_writes (evs ++ evs') = json_writes evs ++ json_writes evs'.
Proof. apply flat_map_app. Qed.

Lemma json_writes_training (evs : list event) :
  Forall training_event evs -> json_writes evs = [].
Proof.
  induction 1 as [|e evs He _ IH]; [reflexivity |].
  destruct e; cbn in *; try assumption; contradiction.
Qed.

Lemma json_writes_epoch (e : Z) (bt bs : float) (n : Net) :
  json_writes (epoch_events e bt bs n) = epoch_json (epoch_result e bt bs n).
Proof.
  unfold epoch_events, epoch_json. cbv zeta.
  set (r := epoch_result e bt bs n).
  change (var_epoch r) with e. change (var_net r) with n.
  destruct (is_train_best r); destruct (is_test_best r); reflexivity.
Qed.

Lemma loop_spec_json (epochs : list Z) (bt bs : float) (n n' : Net)
      (rs : list Run) (evs : list event) :
  loop_spec epochs bt bs n rs n' evs ->
  json_writes evs = flat_map epoch_json rs.
Proof.
  induction 1 as [| e rest bt bs n n1 n' evs_t evs rs Ht HS Hl IH]; [reflexivity |].
  rewrite !json_writes_app, json_writes_epoch,
    (json_writes_training _ (train_net_events _ _ _ Ht)), IH.
  reflexivity.
Qed.

(** Every epoch writes its train and its test summary as [evaluate]
    returned them, then the best files of the partitions whose flag is
    set; a run writes nothing else.  So a best file is only ever
    overwritten by an epoch that is flagged best, with the summary
    stamped with that epoch. *)
Theorem json_files_of_run
        (disk : string -> option Checkpoint) (exp_dir : string)
        (restore_file : option string) (w w0 : World) (start : Z) :
  0 < update_grad_every params -> train_loader <> [] -> save_every params <> 0 ->
  resume disk exp_dir restore_file w = Ok (start, w0) ->
  start < num_epochs params ->
  exists rs w' evs,
    train_and_evaluate disk exp_dir restore_file w = Ok (rs, w')
    /\ trace w' = trace w0 ++ evs
    /\ json_writes evs = flat_map epoch_json rs
    /\ (forall s, In (BestTestJson, s) (json_writes evs) ->
          exists r, In r rs /\ is_test_best r = true /\ s = test_stats r
                    /\ stats_epoch s = Some (var_epoch r + 1))
    /\ (forall s, In (BestTrainJson, s) (json_writes evs) ->
          exists r, In r rs /\ is_train_best r = true /\ s = train_stats r
                    /\ stats_epoch s = Some (var_epoch r + 1)).
Proof.
  intros HK Hne HS Hr Hlt.
  destruct (train_and_evaluate_ok disk exp_dir restore_file w w0 start HK Hne HS Hr Hlt)
    as (rs0 & r & n' & evs & E & Hs).
  destruct (loop_spec_facts _ _ _ _ _ _ _ Hs) as (_ & _ & _ & _ & _ & Hb).
  pose proof (loop_spec_json _ _ _ _ _ _ _ Hs) as Hj.
  eexists _, _, _. split; [exact E |]. cbn [trace]. split; [reflexivity |].
  assert (Hj' : json_writes (evs ++ [SaveCheckpoint (var_state r) (is_test_best r) true])
                = flat_map epoch_json (rs0 ++ [r])).
  { rewrite json_writes_app, Hj. cbn. apply app_nil_r. }
  split; [exact Hj' |]. rewrite Hj'.
  rewrite Forall_forall in Hb.
  split; intros s Hin; apply in_flat_map in Hin; destruct Hin as (x & Hx & Hin);
    exists x; (split; [exact Hx |]); destruct (Hb x Hx) as [Bt Bs];
    unfold epoch_json in Hin; cbn [app In] in Hin.
  - destruct Hin as [Hin | [Hin | Hin]]; try discriminate.
    apply in_app_or in Hin. destruct Hin as [Hin | Hin].
    + destruct (is_train_best x); cbn in Hin; [destruct Hin as [Hin | []] | destruct Hin];
        discriminate.
    + destruct (is_test_best x) eqn:Ex; cbn in Hin; [| destruct Hin].
      destruct Hin as [Hin | []]. injection Hin as <-.
      destruct (Bs eq_refl) as (_ & Hst & _). auto.
  - destruct Hin as [Hin | [Hin | Hin]]; try discriminate.
    apply in_app_or in Hin. destruct Hin as [Hin | Hin].
    + destruct (is_train_best x) eqn:Ex; cbn in Hin; [| destruct Hin].
      destruct Hin as [Hin | []]. injection Hin as <-.
      destruct (Bt eq_refl) as (_ & Hst). auto.
    + destruct (is_test_best x); cbn in Hin; [destruct Hin as [Hin | []] | destruct Hin];
        discriminate.
Qed.

(** ** Extreme accumulation periods *)

(** When the period is at least the number of batches, the whole epoch
    is one accumulation group: one optimizer step, which applies the
    gradients of all batches, and one recorded loss, that of the last
    batch; the losses of the other batches do not enter ["loss_avg"]. *)
Theorem period_covering_epoch (batches : list Batch) (w : World) :
  batches <> [] ->
  Z.of_nat (length batches) <= update_grad_every params ->
  exists l n' evs g,
    epoch_pass params batches w = Ok (l, mkWorld n' (trace w ++ evs))
    /\ optimizer_steps evs = 1
    /\ applied (ledger_of evs) = [g]
    /\ (forall j, 0 <= j < Z.of_nat (length batches) -> In j g)
    /\ loss_batch l
       = [nth (Z.to_nat (Z.of_nat (length batches) - 1)) (losses_of evs) 0%float].
Proof.
  intros Hne HK.
  assert (Hn : 0 < Z.of_nat (length batches))
    by (destruct batches; [congruence | cbn; lia]).
  destruct (epoch_pass_ok batches w ltac:(lia) Hne) as (l & n' & evs & E & Hpost).
  destruct Hpost as (_ & _ & Hlb & Hst & Hrec & Hcov & _).
  assert (Hc : ceil_div (Z.of_nat (length batches)) (update_grad_every params) = 1).
  { pose proof (ceil_div_spec (update_grad_every params) (Z.of_nat (length batches))
                  ltac:(lia)). nia. }
  rewrite Hc in *.
  pose proof (applied_count evs) as Ha. rewrite Hst in Ha.
  destruct (applied (ledger_of evs)) as [|g [|g' r]] eqn:Eg; cbn [length] in Ha; try lia.
  exists l, n', evs, g. split; [exact E |]. split; [exact Hst |].
  split; [exact Eg |]. split.
  - intros j Hj. destruct (Hcov j Hj) as (g0 & Hg0 & Hin).
    rewrite Eg in Hg0. destruct Hg0 as [<- | []]. exact Hin.
  - pose proof (Hrec 0 ltac:(lia)) as H0.
    destruct (loss_batch l) as [|x [|y r]]; cbn [length] in Hlb; try lia.
    cbn [nth Z.to_nat] in H0. rewrite H0. do 3 f_equal. unfold group_end. lia.
Qed.

(** With period 1 there is no accumulation: every batch is followed by
    an optimizer step and every batch loss is recorded, so ["loss_avg"]
    is the mean of all batch losses. *)
Theorem unit_period_records_all (batches : list Batch) (w : World) :
  update_grad_every params = 1 -> batches <> [] ->
  exists l n' evs,
    epoch_pass params batches w = Ok (l, mkWorld n' (trace w ++ evs))
    /\ optimizer_steps evs = Z.of_nat (length batches)
    /\ loss_batch l = losses_of evs.
Proof.
  intros HK Hne.
  destruct (epoch_pass_ok batches w ltac:(lia) Hne) as (l & n' & evs & E & Hpost).
  destruct Hpost as (Hlen & _ & Hlb & Hst & Hrec & _).
  rewrite HK in *.
  assert (Hc : ceil_div (Z.of_nat (length batches)) 1 = Z.of_nat (length batches)).
  { unfold ceil_div. rewrite Z.div_1_r. lia. }
  rewrite Hc in *.
  exists l, n', evs. split; [exact E |]. split; [exact Hst |].
  apply (nth_ext _ _ 0%float 0%float); [lia |].
  intros k Hk. pose proof (Hrec (Z.of_nat k) ltac:(lia)) as H.
  rewrite Nat2Z.id in H. rewrite H. f_equal. unfold group_end. lia.
Qed.

(** ** The summary of an epoch *)

Lemma dict_get_set_other {V : Type} (k k' : string) (v : V) (d : list (string * V)) :
  k <> k' -> dict_get k (dict_set k' v d) = dict_get k d.
Proof.
  intros Hk. apply String.eqb_neq in Hk.
  induction d as [|[k0 v0] d IH]; cbn.
  - rewrite Hk. reflexivity.
  - destruct (String.eqb k' k0) eqn:E; cbn.
    + apply String.eqb_eq in E. subst k0. rewrite Hk. reflexivity.
    + rewrite IH. reflexivity.
Qed.

Lemma dict_get_map {V W : Type} (g : V -> W) (k : string) (d : list (string * V)) :
  dict_get k (map (fun '(name, f) => (name, g f)) d) = option_map g (dict_get k d).
Proof.
  induction d as [|[k0 v0] d IH]; cbn; [reflexivity |].
  destruct (String.eqb k k0); [reflexivity | exact IH].
Qed.

(** The summary that [train_one_epoch] returns holds, under every name
    of [metrics] other than ["loss_avg"], that metric of the accumulated
    outputs and targets, and under ["loss_avg"] the average loss: a
    metric registered as ["loss_avg"] is overwritten (line 86 follows
    lines 84-85).  The summary has no other key. *)
Theorem summary_contents (batches : list Batch) (w w' : World) (summary : Summary) :
  train_one_epoch batches params metrics target_names w = Ok (summary, w') ->
  exists l avg,
    epoch_pass params batches w = Ok (l, w')
    /\ loss_average (loss_batch l) = Ok avg
    /\ dict_get "loss_avg" summary = Some (inr avg)
    /\ (forall name,
          name <> "loss_avg"%string ->
          dict_get name summary
          = option_map
              (fun f => inl (f (fst (Accumulate_call (accumulate l)))
                               (snd (Accumulate_call (accumulate l))) target_names))
              (dict_get name metrics)).
Proof.
  unfold train_one_epoch, bind. intros H.
  destruct (epoch_pass params batches w) as [[l w1] |]; [| discriminate].
  unfold summarize, bind, lift, ret in H. cbn [Accumulate_call] in H.
  destruct (loss_average (loss_batch l)) as [avg |] eqn:Ea; [| discriminate].
  injection H as <- <-.
  exists l, avg. split; [reflexivity |]. split; [exact Ea |].
  split; [apply dict_get_set |].
  intros name Hn. rewrite (dict_get_set_other _ _ _ _ Hn).
  apply (dict_get_map
           (fun f => inl (f (concat (acc_outputs (accumulate l)))
                            (concat (acc_targets (accumulate l))) target_names))).
Qed.

(** ** The targets that reach the accumulator *)

Lemma astype_int32_id (z : Z) : - 2 ^ 31 <= z < 2 ^ 31 -> astype_int32 z = z.
Proof.
  intros H. unfold astype_int32. rewrite Z.mod_small; lia.
Qed.

Lemma loop_body_accumulate (l l1 : Locals) (i : Z) (b : Batch) (w w1 : World) :
  loop_body params l i b w = Ok (l1, w1) ->
  accumulate l1
  = Accumulate_update (accumulate l)
      (binarize (threshold params) (model (net w) (data b)))
      (map (map astype_int32) (target b)).
Proof.
  unfold loop_body, py_mod, optimizer_step, optimizer_zero_grad,
    bind, lift, emit, update_net, get_net, ret. cbn.
  destruct (update_grad_every params =? 0); [discriminate |]. cbn.
  destruct ((i + 1) mod update_grad_every params =? 0); cbn;
    intros H; injection H as <- _; reflexivity.
Qed.

Lemma training_loop_accumulate (batches : list Batch) :
  forall i l w l' w',
    training_loop params i batches l w = Ok (l', w') ->
    acc_targets (accumulate l')
    = acc_targets (accumulate l) ++ map (fun b => map (map astype_int32) (target b)) batches
    /\ length (acc_outputs (accumulate l'))
       = (length (acc_outputs (accumulate l)) + length batches)%nat.
Proof.
  induction batches as [|b rest IH]; intros i l w l' w' H.
  - injection H as <- _. rewrite app_nil_r. cbn. auto.
  - cbn [training_loop] in H. unfold bind in H.
    destruct (loop_body params l i b w) as [[l1 w1] |] eqn:Eb; [| discriminate].
    apply loop_body_accumulate in Eb.
    destruct (IH _ _ _ _ _ H) as [Ht Ho]. rewrite Ht, Ho, Eb.
    cbn [Accumulate_update acc_targets acc_outputs map length].
    rewrite <- app_assoc, length_app. cbn. split; [reflexivity | lia].
Qed.

Lemma loop_else_accumulate (l l' : Locals) (w w' : World) :
  loop_else params l w = Ok (l', w') -> accumulate l' = accumulate l.
Proof.
  unfold loop_else, read_local, py_mod, optimizer_step, optimizer_zero_grad,
    bind, lift, emit, update_net, ret.
  destruct (var_i l) as [i |]; [| discriminate]. cbn.
  destruct (update_grad_every params =? 0); [discriminate |]. cbn.
  destruct ((i + 1) mod update_grad_every params =? 0); cbn.
  - intros H. injection H as <- _. reflexivity.
  - destruct (var_loss l); cbn; [| discriminate].
    intros H. injection H as <- _. reflexivity.
Qed.

(** The accumulator receives one output matrix and one target matrix per
    batch, in batch order, the targets cast to int32; targets within the
    int32 range, such as multi-hot ones, reach the metric functions
    unchanged. *)
Theorem targets_reach_accumulator (batches : list Batch) (w w' : World) (l : Locals) :
  epoch_pass params batches w = Ok (l, w') ->
  acc_targets (accumulate l) = map (fun b => map (map astype_int32) (target b)) batches
  /\ length (acc_outputs (accumulate l)) = length batches
  /\ ((forall b row z, In b batches -> In row (target b) -> In z row ->
                       - 2 ^ 31 <= z < 2 ^ 31) ->
      snd (Accumulate_call (accumulate l)) = concat (map target batches)).
Proof.
  unfold epoch_pass, bind. cbn [update_net]. intros H.
  destruct (training_loop params 0 batches _ _) as [[l1 w1] |] eqn:El; [| discriminate].
  apply training_loop_accumulate in El. destruct El as [Ht Ho].
  apply loop_else_accumulate in H. rewrite H. cbn in Ht, Ho.
  split; [exact Ht |]. split; [exact Ho |].
  intros Hr. cbn [Accumulate_call snd]. rewrite Ht. f_equal.
  apply map_ext_in. intros b Hb.
  rewrite <- (map_id (target b)) at 2. apply map_ext_in. intros row Hrow.
  rewrite <- (map_id row) at 2. apply map_ext_in. intros z Hz.
  apply astype_int32_id. exact (Hr b row z Hb Hrow Hz).
Qed.

End Run.

End Trainer.

Arguments Batch : clear implicits.
Arguments Checkpoint : clear implicits.
Arguments event : clear implicits.
Arguments World : clear implicits.
Arguments Run : clear implicits.

Section Periods.

Context {Data Net ModelState OptimState MetricValue : Type}.
Variable model_train : Net -> Net.
Variable model : Net -> Data -> Scores.
Variable loss_fn : Scores -> IntMatrix -> float.
Variable backward : Net -> Data -> IntMatrix -> Net.
Variable step : Net -> Net.
Variable zero_grad : Net -> Net.
Variable metrics : @Metrics MetricValue.
Variable target_names : list string.

Local Abbreviation World := (World Net ModelState OptimState).
Local Abbreviation Batch := (Batch Data).
Local Abbreviation loop_body := (@loop_body Data Net ModelState OptimState model loss_fn backward step zero_grad).
Local Abbreviation training_loop :=
  (@training_loop Data Net ModelState OptimState model loss_fn backward step zero_grad).
Local Abbreviation loop_else := (@loop_else Net ModelState OptimState step zero_grad).
Local Abbreviation epoch_pass :=
  (@epoch_pass Data Net ModelState OptimState model_train model loss_fn backward step zero_grad).
Local Abbreviation train_one_epoch :=
  (@train_one_epoch Data Net ModelState OptimState MetricValue
     model_train model loss_fn backward step zero_grad).

(** * Further properties of train.py *)

(** ** train_one_epoch for every period *)

(** [params] with another accumulation period. *)
Definition with_period (p : Params) (k : Z) : Params :=
  mkParams k (threshold p) (num_epochs p) (save_every p).

Lemma mod_abs_eqb (a k : Z) : (a mod Z.abs k =? 0) = (a mod k =? 0).
Proof.
  destruct k as [|k|k]; try reflexivity.
  change (Z.abs (Z.neg k)) with (Z.pos k).
  destruct (Z.eqb_spec (a mod Z.pos k) 0) as [E | E];
    destruct (Z.eqb_spec (a mod Z.neg k) 0) as [E' | E']; try reflexivity; exfalso.
  - apply E'. apply Z.mod_divide in E; [| discriminate].
    apply Z.mod_divide; [discriminate |].
    change (Z.neg k) with (- Z.pos k). apply Z.divide_opp_l. exact E.
  - apply E. apply Z.mod_divide in E'; [| discriminate].
    apply Z.mod_divide; [discriminate |].
    change (Z.neg k) with (- Z.pos k) in E'. apply Z.divide_opp_l in E'. exact E'.
Qed.

Lemma at_boundary_abs (p : Params) (i : Z) :
  at_boundary (with_period p (Z.abs (update_grad_every p))) i = at_boundary p i.
Proof. unfold at_boundary. cbn. apply mod_abs_eqb. Qed.

Lemma training_loop_abs (p : Params) (batches : list Batch) :
  update_grad_every p <> 0 ->
  forall i l w,
    training_loop (with_period p (Z.abs (update_grad_every p))) i batches l w
    = training_loop p i batches l w.
Proof.
  intros HK. induction batches as [|b rest IH]; intros i l w; [reflexivity |].
  cbn [training_loop]. unfold bind.
  assert (Hb : forall l i b w,
             loop_body (with_period p (Z.abs (update_grad_every p))) l i b w
             = loop_body p l i b w).
  { clear. intros l i b w.
    unfold loop_body, py_mod, bind, lift, get_net, emit, update_net, ret. cbn.
    destruct (Z.eqb_spec (Z.abs (update_grad_every p)) 0) as [E | E];
      destruct (Z.eqb_spec (update_grad_every p) 0) as [E' | E']; try lia; try reflexivity.
    cbn. rewrite mod_abs_eqb. reflexivity. }
  rewrite Hb. destruct (loop_body p l i b w) as [[l' w'] | e]; [apply IH | reflexivity].
Qed.

Lemma loop_else_abs (p : Params) (l : Locals) (w : World) :
  update_grad_every p <> 0 ->
  loop_else (with_period p (Z.abs (update_grad_every p))) l w = loop_else p l w.
Proof.
  intros HK. unfold loop_else, read_local, py_mod, bind, lift, ret.
  destruct (var_i l) as [i |]; [| reflexivity]. cbn.
  destruct (Z.eqb_spec (Z.abs (update_grad_every p)) 0) as [E | E];
    destruct (Z.eqb_spec (update_grad_every p) 0) as [E' | E']; try lia.
  cbn. rewrite mod_abs_eqb. reflexivity.
Qed.

Lemma epoch_pass_abs (p : Params) (batches : list Batch) (w : World) :
  update_grad_every p <> 0 ->
  epoch_pass (with_period p (Z.abs (update_grad_every p))) batches w
  = epoch_pass p batches w.
Proof.
  intros HK. unfold epoch_pass, bind. cbn [update_net].
  rewrite (training_loop_abs p batches HK).
  destruct (training_loop p 0 batches _ _) as [[l w'] | e]; [| reflexivity].
  apply loop_else_abs. exact HK.
Qed.

(** Over a non-empty loader and with a positive period, lines 35-80 end
    normally with a recorded loss. *)
Lemma epoch_pass_recorded (p : Params) (batches : list Batch) (w : World) :
  0 < update_grad_every p -> batches <> [] ->
  exists l w', loss_batch l <> [] /\ epoch_pass p batches w = Ok (l, w').
Proof.
  intros HK Hne.
  destruct (epoch_pass_ok model_train model loss_fn backward step zero_grad
              p batches w HK Hne) as (l & n' & evs & E & Hpost).
  assert (Hn : 0 < Z.of_nat (length batches))
    by (destruct batches; [congruence | cbn; lia]).
  pose proof (ceil_div_pos _ _ HK Hn) as Hc.
  destruct Hpost as (_ & _ & Hlb & _).
  exists l, (mkWorld n' (trace w ++ evs)). split; [| exact E].
  destruct (loss_batch l); [cbn in Hlb; lia | congruence].
Qed.

(** Python's [%] takes the sign of the divisor, so a negative period
    [-K] sets the same boundaries as [K]: [train_one_epoch] does the same
    with both. *)
Theorem negative_period_as_positive (p : Params) (batches : list Batch) (w : World) :
  train_one_epoch batches (with_period p (- update_grad_every p)) metrics target_names w
  = train_one_epoch batches p metrics target_names w.
Proof.
  destruct (Z.eq_dec (update_grad_every p) 0) as [E | HK].
  - unfold with_period. rewrite E. cbn. destruct p as [k t n s]. cbn in E. subst k.
    reflexivity.
  - unfold train_one_epoch, bind.
    rewrite <- (epoch_pass_abs p batches w HK).
    rewrite <- (epoch_pass_abs (with_period p (- update_grad_every p)) batches w)
      by (cbn; lia).
    cbn [with_period update_grad_every threshold num_epochs save_every].
    rewrite Z.abs_opp.
    destruct (epoch_pass _ batches w) as [[l w'] | e]; [| reflexivity].
    unfold summarize. reflexivity.
Qed.

(** With period 0 the first batch raises ZeroDivisionError at line 53. *)
Lemma zero_period_raises (p : Params) (b : Batch) (rest : list Batch) (w : World) :
  update_grad_every p = 0 ->
  train_one_epoch (b :: rest) p metrics target_names w = Raise (ZeroDivisionError 53).
Proof.
  intros HK. unfold train_one_epoch, epoch_pass, bind. cbn [update_net training_loop].
  unfold bind, loop_body, py_mod, bind, lift, get_net, emit, update_net.
  rewrite HK. reflexivity.
Qed.

(** [train_one_epoch] returns a summary exactly when the loader yields a
    batch and the period is not 0.  An empty loader raises
    UnboundLocalError at line 77 and a zero period ZeroDivisionError at
    line 53; the division of line 86 never raises. *)
Theorem train_one_epoch_outcomes (p : Params) (batches : list Batch) (w : World) :
  ((exists summary w', train_one_epoch batches p metrics target_names w = Ok (summary, w'))
   <-> batches <> [] /\ update_grad_every p <> 0)
  /\ (batches = [] ->
      train_one_epoch batches p metrics target_names w = Raise (UnboundLocalError "i" 77))
  /\ (batches <> [] -> update_grad_every p = 0 ->
      train_one_epoch batches p metrics target_names w = Raise (ZeroDivisionError 53))
  /\ train_one_epoch batches p metrics target_names w <> Raise (ZeroDivisionError 86).
Proof.
  assert (Hempty : batches = [] ->
            train_one_epoch batches p metrics target_names w
            = Raise (UnboundLocalError "i" 77)).
  { intros ->. reflexivity. }
  assert (Hzero : batches <> [] -> update_grad_every p = 0 ->
            train_one_epoch batches p metrics target_names w
            = Raise (ZeroDivisionError 53)).
  { intros Hne HK. destruct batches as [|b rest]; [congruence |].
    apply zero_period_raises. exact HK. }
  assert (Hok : batches <> [] -> update_grad_every p <> 0 ->
            exists summary w',
              train_one_epoch batches p metrics target_names w = Ok (summary, w')).
  { intros Hne HK.
    assert (Hpos : 0 < update_grad_every (with_period p (Z.abs (update_grad_every p))))
      by (cbn; lia).
    destruct (epoch_pass_recorded (with_period p (Z.abs (update_grad_every p)))
                batches w Hpos Hne) as (l & n' & Hl & E).
    rewrite (epoch_pass_abs p batches w HK) in E.
    unfold train_one_epoch, bind. rewrite E.
    unfold summarize, bind, lift, ret. cbn [Accumulate_call].
    rewrite (loss_average_ok _ Hl). eauto. }
  split; [| split; [exact Hempty | split; [exact Hzero |]]].
  - split.
    + intros (summary & w' & E). split.
      * intros Hb. rewrite (Hempty Hb) in E. discriminate.
      * intros HK. destruct batches as [|b rest].
        -- rewrite (Hempty eq_refl) in E. discriminate.
        -- rewrite (zero_period_raises p b rest w HK) in E. discriminate.
    + intros [Hne HK]. apply Hok; assumption.
  - destruct batches as [|b rest].
    + rewrite (Hempty eq_refl). discriminate.
    + destruct (Z.eq_dec (update_grad_every p) 0) as [HK | HK].
      * rewrite (zero_period_raises p b rest w HK). discriminate.
      * destruct (Hok ltac:(discriminate) HK) as (summary & w' & E). rewrite E. discriminate.
Qed.


End Periods.

(** * Concrete runs

    A small instance of the collaborators: the input of a batch is the
    loss it produces, the torch objects are the number of optimizer
    steps taken so far, and the macro-F1 that [evaluate] reports is a
    function [f1] of that number. *)

(** * Binarization, further *)

Lemma binarize_score_range (t s : float) :
  binarize_score t s = 0 \/ binarize_score t s = 1.
Proof. unfold binarize_score. destruct (PrimFloat.ltb t s); auto. Qed.

Lemma binarize_score_nan (t s : float) :
  Prim2SF t = S754_nan \/ Prim2SF s = S754_nan -> binarize_score t s = 0.
Proof.
  intros H. unfold binarize_score.
  destruct (PrimFloat.ltb t s) eqn:E; [| reflexivity].
  apply float_ltb_not_nan in E. rewrite !float_leb_refl_iff in E.
  destruct E as [Et Es]. destruct H; contradiction.
Qed.

(** The binarized matrix has the shape of the scores and holds only 0
    and 1; a NaN score is binarized to 0, and under a NaN threshold
    every score is (lines 58-59: a comparison with NaN is False). *)
Theorem binarize_entries (t : float) (y : Scores) :
  map (@length Z) (binarize t y) = map (@length float) y
  /\ Forall (Forall (fun z => z = 0 \/ z = 1)) (binarize t y)
  /\ (forall s, Prim2SF s = S754_nan -> binarize_score t s = 0)
  /\ (Prim2SF t = S754_nan -> binarize t y = map (map (fun _ => 0)) y).
Proof.
  unfold binarize. split; [| split; [| split]].
  - rewrite map_map. apply map_ext. intros row. apply length_map.
  - apply Forall_map, Forall_forall. intros row _.
    apply Forall_map, Forall_forall. intros s _. apply binarize_score_range.
  - intros s Hs. apply binarize_score_nan. right. exact Hs.
  - intros Ht. apply map_ext. intros row. apply map_ext. intros s.
    apply binarize_score_nan. left. exact Ht.
Qed.

(** Raising the threshold never turns a 0 into a 1: entry by entry, the
    matrix binarized at the higher threshold is below the one binarized
    at the lower threshold. *)
Theorem binarize_threshold_antitone (t1 t2 : float) (y : Scores) :
  PrimFloat.leb t1 t2 = true ->
  Forall2 (Forall2 Z.le) (binarize t2 y) (binarize t1 y).
Proof.
  intros Ht. unfold binarize.
  induction y as [|row y IH]; cbn [map]; constructor; [| exact IH].
  induction row as [|s row IHr]; cbn [map]; constructor; [| exact IHr].
  unfold binarize_score.
  destruct (PrimFloat.ltb t2 s) eqn:E2.
  - rewrite (float_leb_ltb_trans _ _ _ Ht E2). lia.
  - destruct (PrimFloat.ltb t1 s); lia.
Qed.

(** * main: the device and the data paths *)

(** [str] of a Python int, as the f-string of line 226 formats
    [args.device_id]. *)
Definition py_str (z : Z) : string := NilZero.string_of_int (Z.to_int z).

(** [sub in s] on strings. *)
Definition py_in (sub s : string) : bool :=
  match index 0 sub s with
  | Some _ => true
  | None => false
  end.

(** Lines 221-226: the value of [args.device] after the two [if]s, from
    [torch.cuda.is_available()], [args.device] and [args.device_id]. *)
Definition select_device (cuda_is_available : bool) (device : string) (device_id : Z)
  : string :=
  let device :=
    if (negb cuda_is_available && String.eqb device "cuda")%bool
    then "cpu"%string else device in                              (* 221-223 *)
  if String.eqb device "cuda"
  then ("cuda:" ++ py_str device_id)%string                       (* 225-226 *)
  else device.

(** Line 237: whether [torch.cuda.manual_seed(47)] is called. *)
Definition seeds_cuda (device : string) : bool := py_in "cuda" device.

(** Lines 240-245: [train_paths] and [test_paths]. *)
Definition data_paths (data_dirs : list string) : list string * list string :=
  fold_left
    (fun '(train_paths, test_paths) path =>
       (train_paths ++ [path_join path "train"],                   (* 244 *)
        test_paths ++ [path_join path "test"]))                    (* 245 *)
    data_dirs ([], []).

(** The device that [main] trains on is never the bare ["cuda"].  Only
    the bare ["cuda"] is rewritten: without CUDA it becomes ["cpu"] and
    the CUDA seed is not set, with CUDA it becomes ["cuda:<device_id>"]
    and the seed is set.  Any other device string is kept as given, so
    a request for ["cuda:1"] on a machine without CUDA is not switched
    to ["cpu"]. *)
Theorem select_device_outcomes (cuda_is_available : bool) (device : string) (device_id : Z) :
  select_device cuda_is_available device device_id <> "cuda"%string
  /\ (device <> "cuda"%string ->
      select_device cuda_is_available device device_id = device)
  /\ (select_device false "cuda" device_id = "cpu"%string
      /\ seeds_cuda (select_device false "cuda" device_id) = false)
  /\ (select_device true "cuda" device_id = ("cuda:" ++ py_str device_id)%string
      /\ seeds_cuda (select_device true "cuda" device_id) = true).
Proof.
  split; [| split; [| split]].
  - destruct (String.eqb_spec device "cuda") as [-> | Hn].
    + destruct cuda_is_available; cbn; discriminate.
    + unfold select_device. apply String.eqb_neq in Hn.
      rewrite Hn, andb_false_r, Hn. apply String.eqb_neq. exact Hn.
  - intros Hd. apply String.eqb_neq in Hd. unfold select_device.
    rewrite Hd, andb_false_r, Hd. reflexivity.
  - split; reflexivity.
  - split; reflexivity.
Qed.

(** The selection is stable: selecting again from the selected device
    changes nothing. *)
Theorem select_device_idempotent (a a' : bool) (device : string) (i i' : Z) :
  select_device a' (select_device a device i) i' = select_device a device i.
Proof.
  assert (H : select_device a device i <> "cuda"%string).
  { destruct (String.eqb_spec device "cuda") as [-> | Hn].
    - destruct a; cbn; discriminate.
    - unfold select_device. apply String.eqb_neq in Hn.
      rewrite Hn, andb_false_r, Hn. apply String.eqb_neq. exact Hn. }
  apply String.eqb_neq in H. unfold select_device at 1.
  rewrite H, andb_false_r, H. reflexivity.
Qed.

Fixpoint last_char (s : string) : option ascii :=
  match s with
  | EmptyString => None
  | String c EmptyString => Some c
  | String _ r => last_char r
  end.

Lemma last_char_app (a b : string) :
  b <> EmptyString -> last_char (a ++ b) = last_char b.
Proof.
  intros Hb. induction a as [|c a IH]; [reflexivity |].
  cbn [append last_char]. rewrite IH.
  destruct (a ++ b)%string eqn:E; [| reflexivity].
  destruct a; cbn in E; [congruence | discriminate].
Qed.

Lemma last_char_join_train (p : string) : last_char (path_join p "train") = Some "n"%char.
Proof.
  unfold path_join. cbn [starts_with_slash Ascii.eqb].
  cbn. destruct (String.eqb p EmptyString || ends_with_slash p)%bool;
    rewrite last_char_app by discriminate; reflexivity.
Qed.

Lemma last_char_join_test (p : string) : last_char (path_join p "test") = Some "t"%char.
Proof.
  unfold path_join. cbn.
  destruct (String.eqb p EmptyString || ends_with_slash p)%bool;
    rewrite last_char_app by discriminate; reflexivity.
Qed.

Lemma data_paths_fold (data_dirs : list string) : forall tr te,
  fold_left
    (fun '(train_paths, test_paths) path =>
       (train_paths ++ [path_join path "train"],
        test_paths ++ [path_join path "test"]))
    data_dirs (tr, te)
  = (tr ++ map (fun p => path_join p "train") data_dirs,
     te ++ map (fun p => path_join p "test") data_dirs).
Proof.
  induction data_dirs as [|p ds IH]; intros tr te; cbn [fold_left map].
  - rewrite !app_nil_r. reflexivity.
  - rewrite IH, <- !app_assoc. reflexivity.
Qed.

(** [main] gives the train and the test dataset one path per data
    directory, in the order of [--data_dirs], and no path is given to
    both: whatever the directories are, a train path ends in "train"
    and a test path in "test". *)
Theorem data_paths_disjoint (data_dirs : list string) :
  fst (data_paths data_dirs) = map (fun p => path_join p "train") data_dirs
  /\ snd (data_paths data_dirs) = map (fun p => path_join p "test") data_dirs
  /\ forall p, In p (fst (data_paths data_dirs)) -> ~ In p (snd (data_paths data_dirs)).
Proof.
  unfold data_paths. rewrite data_paths_fold. cbn [app fst snd].
  split; [reflexivity |]. split; [reflexivity |].
  intros p Htr Hte.
  apply in_map_iff in Htr. destruct Htr as (d1 & <- & _).
  apply in_map_iff in Hte. destruct Hte as (d2 & E & _).
  apply (f_equal last_char) in E.
  rewrite last_char_join_train, last_char_join_test in E. discriminate.
Qed.

Lemma string_app_assoc (a b c : string) : ((a ++ b) ++ c = a ++ (b ++ c))%string.
Proof. induction a as [|x a IH]; cbn; [reflexivity | rewrite IH; reflexivity]. Qed.

Lemma ends_with_slash_app (d : string) : ends_with_slash (d ++ "/") = true.
Proof.
  induction d as [|c d IH]; [reflexivity |].
  cbn [append ends_with_slash]. rewrite IH.
  destruct (d ++ "/")%string eqn:E; [| reflexivity].
  destruct d; discriminate.
Qed.

(** A data directory may be given with or without its trailing slash
    (the default is "data/"): both give the same train and test paths. *)
Theorem data_paths_trailing_slash (d : string) (rest : list string) :
  d <> EmptyString -> ends_with_slash d = false ->
  data_paths ((d ++ "/")%string :: rest) = data_paths (d :: rest).
Proof.
  intros Hd Hs. unfold data_paths. rewrite !data_paths_fold. cbn [map app].
  assert (H : forall b, starts_with_slash b = false ->
                        path_join (d ++ "/") b = path_join d b).
  { intros b Hb. unfold path_join. rewrite Hb, ends_with_slash_app, Hs, orb_true_r.
    apply String.eqb_neq in Hd. rewrite Hd. cbn [orb].
    rewrite string_app_assoc. reflexivity. }
  rewrite !H by reflexivity. reflexivity.
Qed.

Module Demo.

Definition model_train (n : nat) : nat := n.
Definition model (n : nat) (d : float) : Scores := [[d]].
Definition loss_fn (y_pred : Scores) (t : IntMatrix) : float :=
  match y_pred with
  | (x :: _) :: _ => x
  | _ => 0%float
  end.
Definition backward (n : nat) (d : float) (t : IntMatrix) : nat := n.
Definition zero_grad (n : nat) : nat := n.
Definition evaluate (f1 : nat -> float) (n : nat) (loader : list (Batch float)) : Stats :=
  mkStats (f1 n) 0.25%float None.
Definition state_dict (n : nat) : nat := n.
Definition load_state_dict (ms os n : nat) : nat := ms.

Definition batches (ds : list float) : list (Batch float) :=
  map (fun d => mkBatch d [[1]]) ds.

Definition params (K n S : Z) : Params := mkParams K 0.5%float n S.

Definition world0 : World nat nat nat := mkWorld 0%nat [].

(** One epoch over the batches [ds] with period [K]. *)
Definition pass (K : Z) (ds : list float) : result (Locals * World nat nat nat) :=
  epoch_pass model_train model loss_fn backward S zero_grad
    (params K 3 2) (batches ds) world0.

(** A run of [num] epochs over a train loader of two batches with
    period 2 (one optimizer step per epoch), checkpoint cadence 2. *)
Definition run (f1 : nat -> float) (num : Z)
           (disk : string -> option (Checkpoint nat nat)) (restore_file : option string)
  : result (list (Run nat nat nat) * World nat nat nat) :=
  train_and_evaluate (MetricValue := unit)
    model_train model loss_fn backward S zero_grad (evaluate f1)
    state_dict state_dict load_state_dict
    (batches [1; 2]%float) (batches [3]%float) (params 2 num 2) [] []
    disk "experiments/" restore_file world0.

Definition no_disk : string -> option (Checkpoint nat nat) := fun _ => None.

(** A disk that holds [ck] as [experiments/last.pth.tar]. *)
Definition disk_with (ck : Checkpoint nat nat) : string -> option (Checkpoint nat nat) :=
  fun path => if String.eqb path "experiments/last.pth.tar" then Some ck else None.

Definition states (r : result (list (Run nat nat nat) * World nat nat nat))
  : list (Run nat nat nat) :=
  match r with Ok (rs, _) => rs | Raise _ => [] end.

Definition final_world (r : result (list (Run nat nat nat) * World nat nat nat))
  : World nat nat nat :=
  match r with Ok (_, w) => w | Raise _ => world0 end.

(** The best-tracker trajectory of a run: per epoch, the epoch, the two
    decisions and the two best values. *)
Definition trackers (r : result (list (Run nat nat nat) * World nat nat nat))
  : list (Z * bool * bool * float * float) :=
  map (fun r => (var_epoch r, is_train_best r, is_test_best r,
                 best_train_macro_f1 r, best_test_macro_f1 r)) (states r).

(** The records that a run saved, in order. *)
Definition saved (r : result (list (Run nat nat nat) * World nat nat nat))
  : list (Checkpoint nat nat * bool * bool) :=
  checkpoint_saves (trace (final_world r)).

(** Macro-F1 0.9 after the first epoch and 0.5 from then on. *)
Definition f1_drop (n : nat) : float := if Nat.eqb n 1 then 0.9%float else 0.5%float.

(** Macro-F1 0.10, 0.10, 0.05 over the first three epochs. *)
Definition f1_tie (n : nat) : float :=
  if Nat.leb n 2 then 0.10%float else 0.05%float.

(** Macro-F1 0.0 after the first epoch, then 0.10 and 0.05. *)
Definition f1_late (n : nat) : float :=
  if Nat.eqb n 1 then 0%float else if Nat.eqb n 2 then 0.10%float else 0.05%float.

(** The record that the uninterrupted run of [f1_drop] saved at the end
    of its first epoch (loop index 0). *)
Definition first_checkpoint : Checkpoint nat nat :=
  match saved (run f1_drop 3 no_disk None) with
  | (ck, _, _) :: _ => ck
  | [] => mkCheckpoint 0 0%nat 0%nat
  end.

End Demo.

(** C8, as stated: with the rule [prediction > threshold], threshold 0.5
    and scores [0.4, 0.5, 0.6] do not binarize to [0, 1, 1]. *)
Lemma binarize_half_not_positive :
  binarize 0.5%float [[0.4; 0.5; 0.6]%float] <> [[0; 1; 1]].
Proof. intros H. vm_compute in H. discriminate. Qed.

(** C5, as stated.  The uninterrupted run of [f1_drop] over three epochs
    keeps 0.9 as best value after its first epoch.  The run resumed
    from the checkpoint which that run saved at the end of its first
    epoch restarts the trackers at 0.0: in epoch 2 it takes 0.5 for a
    new best, where the uninterrupted run does not. *)
Lemma resumed_trackers_differ :
  Demo.trackers (Demo.run Demo.f1_drop 3 Demo.no_disk None)
  = [(0, true, true, 0.9%float, 0.9%float); (1, false, false, 0.9%float, 0.9%float);
     (2, false, false, 0.9%float, 0.9%float)]
  /\ Demo.trackers
       (Demo.run Demo.f1_drop 3 (Demo.disk_with Demo.first_checkpoint) (Some "last"%string))
     = [(2, true, true, 0.5%float, 0.5%float)]
  /\ ~ (exists before,
          Demo.trackers (Demo.run Demo.f1_drop 3 Demo.no_disk None)
          = before ++ Demo.trackers
                        (Demo.run Demo.f1_drop 3 (Demo.disk_with Demo.first_checkpoint)
                           (Some "last"%string))).
Proof.
  split; [vm_compute; reflexivity |]. split; [vm_compute; reflexivity |].
  intros (before & H). vm_compute in H.
  destruct before as [|a [|b [|c [|d before]]]]; cbn in H; discriminate.
Qed.

(** C4 at a concrete input.  The run of three epochs saves, at the end
    of the iteration with loop index 0, a record whose epoch is 1; the
    run resumed from that record starts at loop index 2: the iteration
    with loop index 1 never runs, and the resumed run ends after two
    epochs of training where the uninterrupted run has had three. *)
Theorem resume_skips_an_epoch :
  map var_epoch (Demo.states (Demo.run Demo.f1_drop 3 Demo.no_disk None)) = [0; 1; 2]
  /\ hd_error (Demo.saved (Demo.run Demo.f1_drop 3 Demo.no_disk None))
     = Some (Demo.first_checkpoint, true, false)
  /\ Demo.first_checkpoint = mkCheckpoint 1 1%nat 1%nat
  /\ map var_epoch
       (Demo.states
          (Demo.run Demo.f1_drop 3 (Demo.disk_with Demo.first_checkpoint)
             (Some "last"%string)))
     = [2]
  /\ net (Demo.final_world (Demo.run Demo.f1_drop 3 Demo.no_disk None)) = 3%nat
  /\ net (Demo.final_world
            (Demo.run Demo.f1_drop 3 (Demo.disk_with Demo.first_checkpoint)
               (Some "last"%string)))
     = 2%nat.
Proof. repeat split; vm_compute; reflexivity. Qed.

(** ** The theorems at concrete inputs *)


(** The scenario of C2: batch losses 1.0 .. 5.0 with period 2. *)
Lemma recorded_group_losses_witness :
  exists l n' evs,
    Demo.pass 2 [1; 2; 3; 4; 5]%float = Ok (l, mkWorld n' evs)
    /\ losses_of evs = [1; 2; 3; 4; 5]%float
    /\ optimizer_steps evs = 3
    /\ loss_batch l = [2; 4; 5]%float
    /\ mean (loss_batch l) = 3.6666666666666665%float.
Proof.
  destruct (@recorded_group_losses float nat nat nat unit
              Demo.model_train Demo.model Demo.loss_fn Demo.backward S Demo.zero_grad
              (Demo.params 2 3 2) [] [] (Demo.batches [1; 2; 3; 4; 5]%float) Demo.world0)
    as (l & s & avg & n' & evs & E & _ & _ & _ & _ & _ & Ea & Hscen);
    [reflexivity | discriminate |].
  assert (Hobs : losses_of evs = [1; 2; 3; 4; 5]%float).
  { pose proof E as E'. vm_compute in E'. injection E' as _ _ <-. reflexivity. }
  destruct (Hscen eq_refl Hobs) as (Hs & Hl & _ & Hv & _).
  exists l, n', evs. rewrite <- Ea. split; [exact E |]. repeat split; assumption.
Defined.


(** Three batches with the scores 0.4, 0.5 and 0.6 and threshold 0.5:
    the accumulator receives 0, 0 and 1. *)
Lemma binarize_strictly_above_witness :
  exists l n' evs,
    Demo.pass 2 [0.4; 0.5; 0.6]%float = Ok (l, mkWorld n' evs)
    /\ acc_outputs (accumulate l) = [[[0]]; [[0]]; [[1]]].
Proof.
  destruct (@binarize_strictly_above float nat nat nat
              Demo.model_train Demo.model Demo.loss_fn Demo.backward S Demo.zero_grad
              (Demo.params 2 3 2) (Demo.batches [0.4; 0.5; 0.6]%float) Demo.world0)
    as (_ & _ & _ & _ & l & n' & evs & E & _ & Ha & _);
    [reflexivity | discriminate |].
  exists l, n', evs. split; [exact E |].
  rewrite Ha. pose proof E as E'. vm_compute in E'. injection E' as _ _ <-.
  reflexivity.
Defined.

(** Test macro-F1 0.10, 0.10, 0.05 over three epochs. *)
Lemma best_flags_greater_or_equal_witness :
  map test_macro_f1 (Demo.states (Demo.run Demo.f1_tie 3 Demo.no_disk None))
  = [0.10; 0.10; 0.05]%float
  /\ map is_test_best (Demo.states (Demo.run Demo.f1_tie 3 Demo.no_disk None))
     = [true; true; false].
Proof.
  destruct (@best_flags_greater_or_equal float nat nat nat unit
              Demo.model_train Demo.model Demo.loss_fn Demo.backward S Demo.zero_grad
              (Demo.evaluate Demo.f1_tie) Demo.state_dict Demo.state_dict
              Demo.load_state_dict (Demo.batches [1; 2]%float) (Demo.batches [3]%float)
              (Demo.params 2 3 2) [] [] Demo.no_disk "experiments/"%string None
              Demo.world0 Demo.world0 0)
    as (rs & w' & E & _ & _ & _ & Hscen);
    [reflexivity | discriminate | discriminate | reflexivity | reflexivity |].
  assert (Hf : map test_macro_f1 rs = [0.10; 0.10; 0.05]%float).
  { pose proof E as E'. vm_compute in E'. injection E' as <- _. reflexivity. }
  unfold Demo.run. rewrite E. cbn [Demo.states]. split; [exact Hf | exact (Hscen Hf)].
Defined.

(** The best values of the run of [f1_drop] over three epochs. *)
Lemma best_values_nondecreasing_witness :
  StronglySorted float_le
    (0%float :: map best_test_macro_f1
                  (Demo.states (Demo.run Demo.f1_drop 3 Demo.no_disk None))).
Proof.
  destruct (@best_values_nondecreasing float nat nat nat unit
              Demo.model_train Demo.model Demo.loss_fn Demo.backward S Demo.zero_grad
              (Demo.evaluate Demo.f1_drop) Demo.state_dict Demo.state_dict
              Demo.load_state_dict (Demo.batches [1; 2]%float) (Demo.batches [3]%float)
              (Demo.params 2 3 2) [] [] Demo.no_disk "experiments/"%string None
              Demo.world0 Demo.world0 0)
    as (rs & w' & E & _ & Hs);
    [reflexivity | discriminate | discriminate | reflexivity | reflexivity |].
  unfold Demo.run. rewrite E. exact Hs.
Defined.

(** The checkpoint saves of the run of [f1_drop] over three epochs. *)
Lemma checkpoint_saves_of_run_witness :
  exists rs0 r w' evs,
    Demo.run Demo.f1_drop 3 Demo.no_disk None = Ok (rs0 ++ [r], w')
    /\ trace w' = evs
    /\ checkpoint_saves evs
       = map (epoch_save Demo.state_dict Demo.state_dict (Demo.params 2 3 2)) (rs0 ++ [r])
           ++ [(epoch_checkpoint Demo.state_dict Demo.state_dict r, is_test_best r, true)].
Proof.
  destruct (@checkpoint_saves_of_run float nat nat nat unit
              Demo.model_train Demo.model Demo.loss_fn Demo.backward S Demo.zero_grad
              (Demo.evaluate Demo.f1_drop) Demo.state_dict Demo.state_dict
              Demo.load_state_dict (Demo.batches [1; 2]%float) (Demo.batches [3]%float)
              (Demo.params 2 3 2) [] [] Demo.no_disk "experiments/"%string None
              Demo.world0 Demo.world0 0)
    as (rs0 & r & w' & evs & E & Et & _ & _ & Hck);
    [reflexivity | discriminate | discriminate | reflexivity | reflexivity |].
  exists rs0, r, w', evs. split; [exact E |]. split; [exact Et | exact Hck].
Defined.

(** The same saves, computed: one per epoch and the final one. *)
Example checkpoint_saves_of_demo_run :
  Demo.saved (Demo.run Demo.f1_drop 3 Demo.no_disk None)
  = [(mkCheckpoint 1 1%nat 1%nat, true, false);
     (mkCheckpoint 2 2%nat 2%nat, false, true);
     (mkCheckpoint 3 3%nat 3%nat, false, false);
     (mkCheckpoint 3 3%nat 3%nat, false, true)].
Proof. vm_compute. reflexivity. Qed.

(** The run resumed from the record that the uninterrupted run of
    [f1_drop] saved at the end of its first epoch (epoch 1, with the
    state after one epoch): it goes through loop index 2 only, with the
    trackers restarted at 0.0, and that epoch has the model state and
    the scores of loop index 1 of the uninterrupted run.  And the run
    resumed at epoch 1 from the state that the uninterrupted run of
    [f1_late] had after its first epoch, when its best values were
    still 0.0: the resumed run goes through the same states. *)
Lemma resumed_run_restarts_trackers_witness :
  (exists rs' w',
      Demo.run Demo.f1_drop 3 (Demo.disk_with Demo.first_checkpoint) (Some "last"%string)
      = Ok (rs', w')
      /\ map var_epoch rs' = [2]
      /\ tracks 0%float 0%float rs'
      /\ forall r', nth_error rs' 0 = Some r' ->
                    var_net r' = 2%nat
                    /\ train_macro_f1 r' = 0.5%float /\ test_macro_f1 r' = 0.5%float)
  /\ Demo.states
       (Demo.run Demo.f1_late 3 (Demo.disk_with (mkCheckpoint 0 1%nat 1%nat))
          (Some "last"%string))
     = skipn 1 (Demo.states
                  (Demo.run Demo.f1_late 3 (Demo.disk_with (mkCheckpoint 0 1%nat 1%nat))
                     None)).
Proof.
  split.
  - destruct (@resumed_run_restarts_trackers float nat nat nat unit
                Demo.model_train Demo.model Demo.loss_fn Demo.backward S Demo.zero_grad
                (Demo.evaluate Demo.f1_drop) Demo.state_dict Demo.state_dict
                Demo.load_state_dict (Demo.batches [1; 2]%float) (Demo.batches [3]%float)
                (Demo.params 2 3 2) [] []
                (Demo.disk_with Demo.first_checkpoint) "experiments/"%string
                "last"%string Demo.first_checkpoint Demo.world0)
      as (rs' & w' & E & He & Htr & HB);
      [ reflexivity | discriminate | discriminate
      | vm_compute; reflexivity | vm_compute; reflexivity | ].
    destruct (HB Demo.world0
                (Demo.final_world
                   (Demo.run Demo.f1_drop 3 (Demo.disk_with Demo.first_checkpoint) None))
                (firstn 1 (Demo.states
                   (Demo.run Demo.f1_drop 3 (Demo.disk_with Demo.first_checkpoint) None)))
                (skipn 1 (Demo.states
                   (Demo.run Demo.f1_drop 3 (Demo.disk_with Demo.first_checkpoint) None))))
      as [Hpos _]; [vm_compute; reflexivity | vm_compute; reflexivity |].
    exists rs', w'. split; [exact E |].
    split; [rewrite He; vm_compute; reflexivity |]. split; [exact Htr |].
    intros r' H0.
    destruct (nth_error
                (skipn 1 (Demo.states
                   (Demo.run Demo.f1_drop 3 (Demo.disk_with Demo.first_checkpoint) None)))
                0) as [r2 |] eqn:E2; [| vm_compute in E2; discriminate].
    destruct (Hpos 0%nat r' r2 H0 E2) as (A & B & C).
    vm_compute in E2. injection E2 as <-.
    split; [exact A |]. split; [exact B | exact C].
  - destruct (@resumed_run_restarts_trackers float nat nat nat unit
                Demo.model_train Demo.model Demo.loss_fn Demo.backward S Demo.zero_grad
                (Demo.evaluate Demo.f1_late) Demo.state_dict Demo.state_dict
                Demo.load_state_dict (Demo.batches [1; 2]%float) (Demo.batches [3]%float)
                (Demo.params 2 3 2) [] []
                (Demo.disk_with (mkCheckpoint 0 1%nat 1%nat)) "experiments/"%string
                "last"%string (mkCheckpoint 0 1%nat 1%nat) Demo.world0)
      as (rs' & w' & E & _ & _ & HB);
      [ reflexivity | discriminate | discriminate
      | vm_compute; reflexivity | vm_compute; reflexivity | ].
    destruct (HB Demo.world0
                (Demo.final_world
                   (Demo.run Demo.f1_late 3
                      (Demo.disk_with (mkCheckpoint 0 1%nat 1%nat)) None))
                (firstn 1 (Demo.states
                   (Demo.run Demo.f1_late 3
                      (Demo.disk_with (mkCheckpoint 0 1%nat 1%nat)) None)))
                (skipn 1 (Demo.states
                   (Demo.run Demo.f1_late 3
                      (Demo.disk_with (mkCheckpoint 0 1%nat 1%nat)) None))))
      as [_ Hal]; [vm_compute; reflexivity | vm_compute; reflexivity |].
    destruct (Hal ltac:(vm_compute; reflexivity)) as (_ & _ & _ & Hsame).
    unfold Demo.run at 1. rewrite E. cbn [Demo.states].
    apply Hsame; vm_compute; reflexivity.
Defined.

(** * Instances of the further properties *)

(** Resuming the finished run of three epochs (its last record holds
    epoch 3) starts at epoch 4: no epoch runs and line 182 raises. *)
Lemma no_epoch_unbound_state_witness :
  Demo.run Demo.f1_drop 3 (Demo.disk_with (mkCheckpoint 3 3%nat 3%nat)) (Some "last"%string)
  = Raise (UnboundLocalError "state" 182).
Proof.
  apply (@no_epoch_unbound_state float nat nat nat unit
           Demo.model_train Demo.model Demo.loss_fn Demo.backward S Demo.zero_grad
           (Demo.evaluate Demo.f1_drop) Demo.state_dict Demo.state_dict Demo.load_state_dict
           (Demo.batches [1; 2]%float) (Demo.batches [3]%float) (Demo.params 2 3 2) [] []
           (Demo.disk_with (mkCheckpoint 3 3%nat 3%nat)) "experiments/"%string
           (Some "last"%string) Demo.world0 (mkWorld 3%nat []) 4);
    [reflexivity | cbn; lia].
Defined.


(** Three epochs over two batches with period 2: three optimizer steps. *)
Lemma run_optimizer_steps_witness :
  exists rs w',
    Demo.run Demo.f1_drop 3 Demo.no_disk None = Ok (rs, w')
    /\ Z.of_nat (length rs) = 3
    /\ optimizer_steps (trace w') = 3.
Proof.
  destruct (@run_optimizer_steps float nat nat nat unit
              Demo.model_train Demo.model Demo.loss_fn Demo.backward S Demo.zero_grad
              (Demo.evaluate Demo.f1_drop) Demo.state_dict Demo.state_dict
              Demo.load_state_dict (Demo.batches [1; 2]%float) (Demo.batches [3]%float)
              (Demo.params 2 3 2) [] [] Demo.no_disk "experiments/"%string None
              Demo.world0 Demo.world0 0)
    as (rs & w' & evs & E & Et & Hl & Hs);
    [reflexivity | discriminate | discriminate | reflexivity | reflexivity |].
  exists rs, w'. split; [exact E |]. split; [exact Hl |].
  rewrite Et. exact Hs.
Defined.

(** In the run of [f1_drop] (0.9, then 0.5 twice) the best values of
    the last epoch are the largest of the three scores and 0.0. *)
Lemma best_values_are_running_maxima_witness :
  exists rs w',
    Demo.run Demo.f1_drop 3 Demo.no_disk None = Ok (rs, w')
    /\ forall rs1 r rs2,
        rs = rs1 ++ r :: rs2 ->
        is_max_of 0%float (map train_macro_f1 (rs1 ++ [r])) (best_train_macro_f1 r)
        /\ is_max_of 0%float (map test_macro_f1 (rs1 ++ [r])) (best_test_macro_f1 r).
Proof.
  apply (@best_values_are_running_maxima float nat nat nat unit
           Demo.model_train Demo.model Demo.loss_fn Demo.backward S Demo.zero_grad
           (Demo.evaluate Demo.f1_drop) Demo.state_dict Demo.state_dict
           Demo.load_state_dict (Demo.batches [1; 2]%float) (Demo.batches [3]%float)
           (Demo.params 2 3 2) [] [] Demo.no_disk "experiments/"%string None
           Demo.world0 Demo.world0 0);
    [reflexivity | discriminate | discriminate | reflexivity | reflexivity].
Defined.

(** The JSON files of the run of [f1_drop]. *)
Lemma json_files_of_run_witness :
  exists rs w',
    Demo.run Demo.f1_drop 3 Demo.no_disk None = Ok (rs, w')
    /\ json_writes (trace w')
       = flat_map (epoch_json (Demo.evaluate Demo.f1_drop)
                     (Demo.batches [1; 2]%float) (Demo.batches [3]%float)) rs.
Proof.
  destruct (@json_files_of_run float nat nat nat unit
              Demo.model_train Demo.model Demo.loss_fn Demo.backward S Demo.zero_grad
              (Demo.evaluate Demo.f1_drop) Demo.state_dict Demo.state_dict
              Demo.load_state_dict (Demo.batches [1; 2]%float) (Demo.batches [3]%float)
              (Demo.params 2 3 2) [] [] Demo.no_disk "experiments/"%string None
              Demo.world0 Demo.world0 0)
    as (rs & w' & evs & E & Et & Hj & _);
    [reflexivity | discriminate | discriminate | reflexivity | reflexivity |].
  exists rs, w'. split; [exact E |]. rewrite Et. exact Hj.
Defined.

(** Three batches with period 5: one step, and the recorded loss is the
    third batch's. *)
Lemma period_covering_epoch_witness :
  exists l n' evs,
    epoch_pass Demo.model_train Demo.model Demo.loss_fn Demo.backward S Demo.zero_grad
      (Demo.params 5 3 2) (Demo.batches [1; 2; 3]%float) Demo.world0
    = Ok (l, mkWorld n' evs)
    /\ optimizer_steps evs = 1
    /\ loss_batch l = [nth 2 (losses_of evs) 0%float].
Proof.
  destruct (@period_covering_epoch float nat nat nat
              Demo.model_train Demo.model Demo.loss_fn Demo.backward S Demo.zero_grad
              (Demo.params 5 3 2) (Demo.batches [1; 2; 3]%float) Demo.world0)
    as (l & n' & evs & g & E & Hs & _ & _ & Hl);
    [discriminate | cbn; lia |].
  exists l, n', evs. split; [exact E |]. split; [exact Hs | exact Hl].
Defined.

(** Three batches with period 1: three steps, every loss recorded. *)
Lemma unit_period_records_all_witness :
  exists l n' evs,
    Demo.pass 1 [1; 2; 3]%float = Ok (l, mkWorld n' evs)
    /\ optimizer_steps evs = 3
    /\ loss_batch l = losses_of evs.
Proof.
  destruct (@unit_period_records_all float nat nat nat
              Demo.model_train Demo.model Demo.loss_fn Demo.backward S Demo.zero_grad
              (Demo.params 1 3 2) (Demo.batches [1; 2; 3]%float) Demo.world0)
    as (l & n' & evs & E & Hs & Hl);
    [reflexivity | discriminate |].
  exists l, n', evs. split; [exact E |]. split; [exact Hs | exact Hl].
Defined.

(** A metric registered under the name "loss_avg" does not reach the
    summary: the average loss takes its place. *)
Lemma summary_contents_witness :
  exists summary w' avg,
    train_one_epoch Demo.model_train Demo.model Demo.loss_fn Demo.backward S Demo.zero_grad
      (Demo.batches [1; 2]%float) (Demo.params 2 3 2)
      [("macro_f1"%string, fun _ _ _ => true); ("loss_avg"%string, fun _ _ _ => false)]
      [] Demo.world0
    = Ok (summary, w')
    /\ dict_get "loss_avg" summary = Some (inr avg)
    /\ dict_get "macro_f1" summary = Some (inl true).
Proof.
  destruct (@train_one_epoch_ok float nat nat nat bool
              Demo.model_train Demo.model Demo.loss_fn Demo.backward S Demo.zero_grad
              (Demo.params 2 3 2)
              [("macro_f1"%string, fun _ _ _ => true); ("loss_avg"%string, fun _ _ _ => false)]
              [] (Demo.batches [1; 2]%float) Demo.world0)
    as (l0 & summary & n' & evs & _ & E & _); [reflexivity | discriminate |].
  destruct (@summary_contents float nat nat nat bool
              Demo.model_train Demo.model Demo.loss_fn Demo.backward S Demo.zero_grad
              (Demo.params 2 3 2)
              [("macro_f1"%string, fun _ _ _ => true); ("loss_avg"%string, fun _ _ _ => false)]
              [] (Demo.batches [1; 2]%float) Demo.world0 _ _ E)
    as (l & avg & _ & _ & Ha & Hm).
  exists summary, (mkWorld n' (trace Demo.world0 ++ evs)), avg.
  split; [exact E |]. split; [exact Ha |].
  exact (Hm "macro_f1"%string ltac:(discriminate)).
Defined.

(** The targets of three batches reach the accumulator in batch order. *)
Lemma targets_reach_accumulator_witness :
  exists l w',
    Demo.pass 2 [1; 2; 3]%float = Ok (l, w')
    /\ acc_targets (accumulate l) = [[[1]]; [[1]]; [[1]]]
    /\ length (acc_outputs (accumulate l)) = 3%nat.
Proof.
  destruct (@epoch_pass_ok float nat nat nat
              Demo.model_train Demo.model Demo.loss_fn Demo.backward S Demo.zero_grad
              (Demo.params 2 3 2) (Demo.batches [1; 2; 3]%float) Demo.world0)
    as (l & n' & evs & E & _); [reflexivity | discriminate |].
  destruct (@targets_reach_accumulator float nat nat nat
              Demo.model_train Demo.model Demo.loss_fn Demo.backward S Demo.zero_grad
              (Demo.params 2 3 2) (Demo.batches [1; 2; 3]%float) Demo.world0 _ _ E)
    as (Ht & Ho & _).
  exists l, (mkWorld n' (trace Demo.world0 ++ evs)).
  split; [exact E |]. split; [exact Ht | exact Ho].
Defined.

(** Scores 0.4, 0.5, 0.6 at the thresholds 0.5 and 0.3. *)
Lemma binarize_threshold_antitone_witness :
  Forall2 (Forall2 Z.le) [[0; 0; 1]] [[1; 1; 1]].
Proof.
  exact (binarize_threshold_antitone 0.3%float 0.5%float [[0.4; 0.5; 0.6]]%float eq_refl).
Defined.

(** "data" and "data/" name the same train and test directories. *)
Lemma data_paths_trailing_slash_witness :
  data_paths ["data/"%string; "extra"%string]
  = (["data/train"; "extra/train"], ["data/test"; "extra/test"])%string
  /\ data_paths ["data"%string; "extra"%string] = data_paths ["data/"%string; "extra"%string].
Proof.
  split; [reflexivity |].
  symmetry.
  exact (data_paths_trailing_slash "data" ["extra"%string] ltac:(discriminate) eq_refl).
Defined.
